(** * Settings loader of [api/settings.py]

    A shallow embedding of [_AbstractSettings.load], [_convert_to_time],
    [_process_filepaths] and the [PreparationSettings] schema, with the
    properties of the layered configuration contract proved over it.

    Python dictionaries are finite maps ([gmap]); the file system, the YAML
    parser and the pandas constructors are outside the repository and are
    taken as parameters.  Effects are explicit: every computation returns the
    list of events it produced (files opened, warnings logged) together with
    either an exception or a value. *)

From stdpp Require Import gmap strings list fin_maps fin_sets.

Open Scope string_scope.
Set Warnings "-clear-no-such-hyp".

(** ** Values *)

(** [_TIME_TYPES = {Period, Timestamp, Timedelta, DateOffset}] *)
Inductive time_type := Period | Timestamp | Timedelta | DateOffset.

(** The declared type of a field: one of the pandas time types, or any
    other annotation ([str], [float], [Path], ...), which [load] never
    inspects beyond its membership in [_TIME_TYPES]. *)
Inductive pytype :=
  | TStr | TFloat | TInt | TBool | TPath
  | TTime (t : time_type).

(** Python values that reach the loader: YAML scalars, paths given as
    overrides, and pandas time objects.  A float is identified by its
    [repr], a time object by its type and the text that denotes it. *)
Inductive value :=
  | VNone
  | VBool (b : bool)
  | VInt (z : Z)
  | VFloat (repr : string)
  | VStr (s : string)
  | VPath (s : string)
  | VTime (t : time_type) (text : string).

(** [value is not None] *)
Definition is_none (v : value) : bool :=
  match v with VNone => true | _ => false end.

(** ** Exceptions and effects *)

Inductive exn :=
  | NotDataClassError
  | MissingParamError
  | TypeError
  | ValueError
  | AttributeError
  | KeyError
  | FileNotFoundError
  | IsADirectoryError
  | YAMLError
  | FrozenInstanceError.

Inductive event :=
  | Opened (filepath : string)   (* [Path(filepath).open(...)] was called *)
  | Warned.                      (* [logger.warning(...)] was called *)

(** A computation: the events it emitted, and an exception or a result. *)
Definition M (A : Type) : Type := list event * (exn + A).

Definition ret {A} (a : A) : M A := ([], inr a).
Definition raise {A} (e : exn) : M A := ([], inl e).
Definition emit (ev : event) : M unit := ([ev], inr tt).
Definition bind {A B} (m : M A) (k : A → M B) : M B :=
  match m with
  | (tr, inl e) => (tr, inl e)
  | (tr, inr a) => let '(tr', r) := k a in (app tr tr', r)
  end.

Notation "'let!' x ':=' m 'in' k" := (bind m (λ x, k))
  (at level 10, x name, m at level 100, k at level 200).
Notation "'do!' m 'in' k" := (bind m (λ _, k))
  (at level 10, m at level 100, k at level 200).

(** ** YAML documents and the file system *)

(** A key of a YAML mapping: a string, or some other hashable scalar. *)
Inductive ykey := KStr (s : string) | KInt (z : Z).

Global Instance ykey_eq_dec : EqDecision ykey.
Proof. solve_decision. Defined.
Global Instance ykey_countable : Countable ykey.
Proof.
  refine (inj_countable'
    (λ k, match k with KStr s => inl s | KInt z => inr z end)
    (λ x, match x with inl s => KStr s | inr z => KInt z end) _).
  by intros [].
Defined.

(** What [safe_load] returns: a mapping, or a document that is not one
    (an empty file gives [None], a top-level list or scalar). *)
Inductive yaml :=
  | YMap (d : gmap ykey value)
  | YOther.

(** The file system seen through [open] and [safe_load]: for every path,
    the exception one of them raises, or the parsed document. *)
Definition filesystem := string → exn + yaml.

(** ** Classes *)

Record field_decl := {
  fname : string;
  ftype : pytype;
  fdefault : option value   (* [None]: the field is required *)
}.

(** A class that inherits [load]: whether it is a dataclass, whether it was
    declared [frozen=True], and its annotated fields in declaration
    order. *)
Record pyclass := {
  is_dataclass : bool;
  frozen : bool;
  hints : list field_decl
}.

Definition field_names (cls : pyclass) : list string := fname <$> hints cls.

(** [set(get_type_hints(cls).keys())] *)
Definition fields (cls : pyclass) : gset string := list_to_set (field_names cls).

Definition required (cls : pyclass) (f : string) : Prop :=
  ∃ fd, fd ∈ hints cls ∧ fname fd = f ∧ fdefault fd = None.

(** An instance is its attribute dictionary. *)
Abbreviation instance := (gmap string value).

(** [@dataclass(frozen=True) class PreparationSettings(_AbstractSettings)] *)
Definition PreparationSettings : pyclass := {|
  is_dataclass := true;
  frozen := true;
  hints := [ {| fname := "target";    ftype := TStr;   fdefault := None |};
             {| fname := "test_size"; ftype := TFloat; fdefault := None |};
             {| fname := "in_path";   ftype := TPath;  fdefault := None |};
             {| fname := "out_train"; ftype := TPath;  fdefault := None |};
             {| fname := "out_test";  ftype := TPath;  fdefault := None |} ]
|}.

(** [_AbstractSettings] itself: no annotations, not a dataclass. *)
Definition AbstractSettings : pyclass :=
  {| is_dataclass := false; frozen := false; hints := [] |}.

(** ** The [filepaths] argument *)

Inductive filepaths_arg :=
  | NoPaths                       (* [None], the default *)
  | OneStr (s : string)           (* a [str] *)
  | OnePath (s : string)          (* a [pathlib.Path] *)
  | ManyPaths (l : list string).  (* a list or another iterable *)

(** Truth value of the argument in [if filepaths:].  An empty iterable
    that is not a list is true in Python, and then yields no path. *)
Definition truthy (fp : filepaths_arg) : bool :=
  match fp with
  | NoPaths => false
  | OneStr s => negb (String.eqb s "")
  | OnePath _ => true
  | ManyPaths l => negb (bool_decide (l = []))
  end.

Definition _process_filepaths (fp : filepaths_arg) : list string :=
  match fp with
  | NoPaths => []
  | OneStr s => [s]
  | OnePath s => [s]
  | ManyPaths l => l
  end.

(** The paths [load] iterates over. *)
Definition paths_of (fp : filepaths_arg) : list string :=
  if truthy fp then _process_filepaths fp else [].

(** ** The loader *)

(** [{field: value for field, value in content.items() if field in fields}] *)
Definition keep_field (fs : gset string) (kv : ykey * value) : option (string * value) :=
  match kv.1 with
  | KStr s => if bool_decide (s ∈ fs) then Some (s, kv.2) else None
  | KInt _ => None
  end.

Definition recognised (fs : gset string) (d : gmap ykey value) : gmap string value :=
  list_to_map (omap (keep_field fs) (map_to_list d)).

(** [{field: value for field, value in params.items() if value is not None}] *)
Definition non_null (params : gmap string value) : gmap string value :=
  filter (λ kv, is_none kv.2 = false) params.

(** The body of [for filepath in filepaths:] for one path. *)
Definition read_file (fs : gset string) (disk : filesystem) (filepath : string)
    (settings : gmap string value) : M (gmap string value) :=
  do! emit (Opened filepath) in
  match disk filepath with
  | inl e => raise e
  | inr YOther => raise AttributeError          (* [content.items()] *)
  | inr (YMap d) =>
      let content := recognised fs d in
      do! (if bool_decide (dom settings ∩ dom content ≠ ∅)
           then emit Warned else ret tt) in
      ret (content ∪ settings)                  (* [settings.update(content)] *)
  end.

Fixpoint read_files (fs : gset string) (disk : filesystem) (paths : list string)
    (settings : gmap string value) : M (gmap string value) :=
  match paths with
  | [] => ret settings
  | p :: ps =>
      let! settings' := read_file fs disk p settings in
      read_files fs disk ps settings'
  end.

(** Lines 71-92 of [load]: the accumulator after the files and the
    overrides. *)
Definition merge (cls : pyclass) (disk : filesystem) (fp : filepaths_arg)
    (params : gmap string value) : M (gmap string value) :=
  let! settings := read_files (fields cls) disk (paths_of fp) ∅ in
  ret (non_null params ∪ settings).

(** Calling [cls] with the entries of [settings] as keyword arguments, for a
    dataclass: the generated [__init__] raises
    [TypeError] on an unexpected keyword and on a missing argument that has
    no default. *)
Definition init_ok (cls : pyclass) (settings : gmap string value) : bool :=
  bool_decide (dom settings ⊆ fields cls) &&
  forallb (λ fd, match fdefault fd with
                 | Some _ => true
                 | None => bool_decide (fname fd ∈ dom settings)
                 end) (hints cls).

Definition set_attribute (settings : gmap string value) (fd : field_decl)
    (inst : instance) : instance :=
  match settings !! fname fd, fdefault fd with
  | Some v, _ => <[fname fd := v]> inst       (* the keyword argument *)
  | None, Some v => <[fname fd := v]> inst    (* the declared default *)
  | None, None => inst
  end.

Definition attributes (cls : pyclass) (settings : gmap string value) : instance :=
  foldr (set_attribute settings) ∅ (hints cls).

Definition construct (cls : pyclass) (settings : gmap string value) : exn + instance :=
  if init_ok cls settings then inr (attributes cls settings) else inl TypeError.


(** The declaration of [f], and its time type when it has one. *)
Definition declaration (cls : pyclass) (f : string) : option field_decl :=
  find (λ fd, bool_decide (fname fd = f)) (hints cls).

Definition time_type_of (cls : pyclass) (f : string) : option time_type :=
  match declaration cls f with
  | Some {| ftype := TTime t |} => Some t
  | _ => None
  end.

Section Loader.

(** [field_type(settings[field])] for the four pandas types: the
    constructor returns an object or raises. *)
Variable constructor : time_type → value → exn + value.

(** The dictionary comprehension of [_convert_to_time]. *)
Definition time_field_types (cls : pyclass) (settings : gmap string value)
    : list (string * time_type) :=
  omap (λ fd, match ftype fd with
              | TTime t => if bool_decide (fname fd ∈ dom settings)
                           then Some (fname fd, t) else None
              | _ => None
              end) (hints cls).

(** The loop of [_convert_to_time]. *)
Fixpoint convert_loop (l : list (string * time_type)) (settings : gmap string value)
    : exn + gmap string value :=
  match l with
  | [] => inr settings
  | (field, t) :: l' =>
      match settings !! field with
      | None => inl KeyError                        (* [settings[field]] *)
      | Some v =>
          if is_none v then convert_loop l' settings
          else match constructor t v with
               | inl e => inl e
               | inr w => convert_loop l' (<[field := w]> settings)
               end
      end
  end.

Definition _convert_to_time (cls : pyclass) (settings : gmap string value)
    : exn + gmap string value :=
  convert_loop (time_field_types cls settings) settings.

Definition lift {A} (r : exn + A) : M A := ([], r).

(** [_AbstractSettings.load] *)
Definition load (cls : pyclass) (disk : filesystem) (fp : filepaths_arg)
    (params : gmap string value) : M instance :=
  if negb (is_dataclass cls) then raise NotDataClassError
  else
    let! settings := merge cls disk fp params in
    let! settings := lift (_convert_to_time cls settings) in
    match construct cls settings with
    | inr inst => ret inst
    | inl TypeError => raise MissingParamError
    | inl e => raise e
    end.

(** What [_convert_to_time] does to the value [v] held by the field [f]. *)
Definition coerce (cls : pyclass) (f : string) (v : value) : exn + value :=
  match time_type_of cls f with
  | Some t => if is_none v then inr v else constructor t v
  | None => inr v
  end.

(** The value [w] held by the instance for a field [f] whose merged
    value is [v]: [v] itself, or the time object built from [v] when the
    declared type of [f] is a time type and [v] is not [None]. *)
Definition stored_as (cls : pyclass) (f : string) (v w : value) : Prop :=
  match time_type_of cls f with
  | Some t => if is_none v then w = v else constructor t v = inr w
  | None => w = v
  end.

End Loader.

(** A sample of the pandas constructors for concrete runs: a time object is
    built from a string, an object of the requested type is returned as it
    is, and anything else is refused. *)
Definition pandas (t : time_type) (v : value) : exn + value :=
  match v with
  | VStr s => inr (VTime t s)
  | VTime t' _ =>
      match t, t' with
      | Period, Period | Timestamp, Timestamp
      | Timedelta, Timedelta | DateOffset, DateOffset => inr v
      | _, _ => inl TypeError
      end
  | _ => inl TypeError
  end.

(** ** Vocabulary of the properties *)

(** The events of one iteration over a file that parses to a mapping. *)
Definition file_events (fs : gset string) (filepath : string)
    (settings : gmap string value) (d : gmap ykey value) : list event :=
  Opened filepath ::
  (if bool_decide (dom settings ∩ dom (recognised fs d) ≠ ∅) then [Warned] else []).

(** Every listed file parses to a mapping. *)
Definition all_mappings (disk : filesystem) (paths : list string) : Prop :=
  ∀ p, p ∈ paths → ∃ d, disk p = inr (YMap d).

(** No listed file has the key [f]. *)
Definition no_file_has (disk : filesystem) (paths : list string) (f : string) : Prop :=
  ∀ p d, p ∈ paths → disk p = inr (YMap d) → d !! KStr f = None.

(** Some listed file has the key [f]. *)
Definition some_file_has (disk : filesystem) (paths : list string) (f : string) : Prop :=
  ∃ p d, p ∈ paths ∧ disk p = inr (YMap d) ∧ is_Some (d !! KStr f).

(** Two outcomes of reading a path agree on the schema: the same
    exception, or two mappings with the same entries at the field names
    (their other keys are arbitrary). *)
Definition agree_on (fs : gset string) (r r' : exn + yaml) : Prop :=
  match r, r' with
  | inr (YMap d), inr (YMap d') => ∀ s, s ∈ fs → d !! KStr s = d' !! KStr s
  | _, _ => r = r'
  end.

(** The overrides do not supply [f]: it is not passed, or passed as
    [None]. *)
Definition not_overridden (params : gmap string value) (f : string) : Prop :=
  ∀ v, params !! f = Some v → is_none v = true.

(** ** Sample inputs *)

(** The configuration of the data preparation script. *)
Definition config_yaml : gmap ykey value :=
  list_to_map [ (KStr "target", VStr "quality"); (KStr "test_size", VFloat "0.2") ].

(** The same with keys the schema does not declare. *)
Definition noisy_yaml : gmap ykey value :=
  list_to_map [ (KStr "target", VStr "quality"); (KStr "test_size", VFloat "0.2");
                (KStr "seed", VInt 42); (KInt 7, VStr "seven") ].

Definition second_yaml : gmap ykey value :=
  list_to_map [ (KStr "test_size", VFloat "0.3") ].

Definition null_yaml : gmap ykey value :=
  list_to_map [ (KStr "target", VNone); (KStr "test_size", VFloat "0.2") ].

Definition sample_disk (noisy : bool) : filesystem := λ p,
  if String.eqb p "config.yaml" then inr (YMap (if noisy then noisy_yaml else config_yaml))
  else if String.eqb p "second.yaml" then inr (YMap second_yaml)
  else if String.eqb p "null.yaml" then inr (YMap null_yaml)
  else if String.eqb p "empty.yaml" then inr YOther
  else if String.eqb p "broken.yaml" then inl YAMLError
  else inl FileNotFoundError.

(** The overrides the script always passes. *)
Definition cli_params : gmap string value :=
  list_to_map [ ("in_path", VPath "data/winequality-red.csv");
                ("out_train", VPath "data/train.parquet");
                ("out_test", VPath "data/test.parquet") ].

(** The overrides of the script with one the schema does not declare. *)
Definition seeded_params : gmap string value := <["seed" := VInt 42]> cli_params.

(** The overrides of the script with one for [test_size]. *)
Definition sized_params : gmap string value := <["test_size" := VFloat "0.5"]> cli_params.

(** A schema with a time field, as [_convert_to_time] provides for. *)
Definition WindowSettings : pyclass := {|
  is_dataclass := true;
  frozen := true;
  hints := [ {| fname := "label"; ftype := TStr; fdefault := None |};
             {| fname := "start"; ftype := TTime Timestamp; fdefault := None |} ]
|}.

Definition window_yaml : gmap ykey value :=
  list_to_map [ (KStr "label", VStr "q1"); (KStr "start", VStr "2024-01-01") ].

Definition later_yaml : gmap ykey value :=
  list_to_map [ (KStr "start", VStr "2024-06-01") ].

Definition window_disk : filesystem := λ p,
  if String.eqb p "window.yaml" then inr (YMap window_yaml)
  else if String.eqb p "later.yaml" then inr (YMap later_yaml)
  else inl FileNotFoundError.

(** An override for the time field of [WindowSettings]. *)
Definition start_params : gmap string value := {[ "start" := VStr "2024-02-02" ]}.

(** The dictionary [load] hands to [_convert_to_time] once it has merged
    the documents [docs], in order, and applied [params]. *)
Definition merged_from (cls : pyclass) (docs : list (gmap ykey value))
    (params : gmap string value) : gmap string value :=
  non_null params ∪ foldl (λ acc d, recognised (fields cls) d ∪ acc) ∅ docs.

(** ** Vocabulary of the further properties *)

(** The files a trace shows as opened, in order. *)
Definition opened (tr : list event) : list string :=
  omap (λ ev, match ev with Opened p => Some p | Warned => None end) tr.

(** The exception the iteration over a file raises, if any: what [open] or
    [safe_load] raised, or the [AttributeError] of [content.items()] on a
    document that is not a mapping. *)
Definition unreadable (r : exn + yaml) : option exn :=
  match r with
  | inl e => Some e
  | inr YOther => Some AttributeError
  | inr (YMap _) => None
  end.

(** Whether some field of the class is declared with a time type. *)
Definition has_time_field (cls : pyclass) : bool :=
  existsb (λ fd, match ftype fd with TTime _ => true | _ => false end) (hints cls).

(** The call of [load] in [prepare_data] of [scripts/data_prep.py]:
    [PreparationSettings.load(config_path, in_path=in_path,
    out_train=out_train, out_test=out_test)], where click hands over every
    argument as a [pathlib.Path]. *)
Definition script_params (in_path out_train out_test : string) : gmap string value :=
  <["in_path" := VPath in_path]>
    (<["out_train" := VPath out_train]> (<["out_test" := VPath out_test]> ∅)).

Definition script_settings (constructor : time_type → value → exn + value)
    (disk : filesystem) (config_path in_path out_train out_test : string) : M instance :=
  load constructor PreparationSettings disk (OnePath config_path)
    (script_params in_path out_train out_test).

(** A schema with a default, for concrete runs. *)
Definition SplitSettings : pyclass := {|
  is_dataclass := true;
  frozen := true;
  hints := [ {| fname := "target"; ftype := TStr; fdefault := None |};
             {| fname := "test_size"; ftype := TFloat; fdefault := Some (VFloat "0.25") |};
             {| fname := "since"; ftype := TTime Timestamp;
                fdefault := Some (VStr "2020-01-01") |} ]
|}.

Definition target_yaml : gmap ykey value :=
  list_to_map [ (KStr "target", VStr "quality") ].

Definition bad_window_yaml : gmap ykey value :=
  list_to_map [ (KStr "label", VStr "q1"); (KStr "start", VInt 7) ].

Definition split_disk : filesystem := λ p,
  if String.eqb p "target.yaml" then inr (YMap target_yaml)
  else if String.eqb p "bad_window.yaml" then inr (YMap bad_window_yaml)
  else inl FileNotFoundError.

(** ** The stock gains endpoint of [api/api/stock_api.py] *)

(** What is raised in the API code: FastAPI's [HTTPException], or any other
    Python exception, known by the name of its class. *)
Inductive exc :=
  | HTTPException (code : Z) (detail : string)
  | OtherException (class : string).

(** What the endpoint takes from outside the repository: Python floats with
    their arithmetic and the test for zero that makes [/] raise,
    [datetime.strptime(s, "%Y-%m-%d")], which gives an instant or the
    message of its [ValueError], and the formatting of the page from the
    interpolated values (the end date is interpolated as the parsed
    instant, the name [end_date] being bound again). *)
Record library := {
  float : Type;
  fdiv : float → float → float;
  fmul : float → float → float;
  fsub : float → float → float;
  fadd : float → float → float;
  hundred : float;
  is_zero : float → bool;
  strptime : string → string + Z;
  page : string → string → Z → float → float → float → float → float → float → string
}.

(** A row of the prepared frame: the columns the endpoint reads.  [Name]
    and [date] hold no null; a price may. *)
Record row (L : library) := {
  Name : string;
  date : Z;
  open : option (float L);
  close : option (float L)
}.

Arguments Name {L} _.
Arguments date {L} _.
Arguments open {L} _.
Arguments close {L} _.

Record HTMLResponse := {
  content : string;
  status_code : Z
}.



(** [series.item()]: the only element, or a [ValueError]. *)
Definition item {A} (series : list A) : exc + A :=
  match series with
  | [x] => inr x
  | _ => inl (OtherException "ValueError")
  end.

Definition exc_bind {A B} (m : exc + A) (k : A → exc + B) : exc + B :=
  match m with
  | inl e => inl e
  | inr a => k a
  end.

Notation "'try!' x ':=' m 'in' k" := (exc_bind m (λ x, k))
  (at level 10, x name, m at level 100, k at level 200).

(** The two [strptime] calls and their [except ValueError]. *)
Definition parse_dates (L : library) (starting_date end_date : string) : exc + Z * Z :=
  match strptime L starting_date with
  | inl ve => inl (HTTPException 400 ("Invalid date format. Use YYYY-MM-DD. Error: " ++ ve))
  | inr start_date =>
      match strptime L end_date with
      | inl ve => inl (HTTPException 400 ("Invalid date format. Use YYYY-MM-DD. Error: " ++ ve))
      | inr end_date => inr (start_date, end_date)
      end
  end.

(** The body of the outer [try] of [calculate_gains]; [data] is what the
    call of [load_data] gives. *)
Definition gains_body (L : library) (data : exc + list (row L))
    (name starting_date end_date : string) (investment : float L) : exc + HTMLResponse :=
  try! dates := parse_dates L starting_date end_date in
  let '(start_date, end_date) := dates in
  if (start_date >=? end_date)%Z
  then inl (HTTPException 400 "Start date must be before end date.")
  else
    try! prepared_df := data in
    let company_data :=
      filter (λ r, Name r = name ∧ (start_date ≤ date r)%Z ∧ (date r ≤ end_date)%Z)
             prepared_df in
    if bool_decide (company_data = [])
    then inl (HTTPException 404 "No data found for the specified company and date range.")
    else
      let start_price_data := filter (λ r, date r = start_date) company_data in
      let end_price_data := filter (λ r, date r = end_date) company_data in
      if bool_decide (start_price_data = []) || bool_decide (end_price_data = [])
      then inl (HTTPException 404 "No data found for the specified dates.")
      else
        try! start_price := item (open <$> start_price_data) in
        try! end_price := item (close <$> end_price_data) in
        match end_price, start_price with
        | Some e, Some s =>
            (* [e / s] raises on a zero divisor *)
            if is_zero L s then inl (OtherException "ZeroDivisionError")
            else
              let gains := fmul L (fdiv L e s) investment in
              let percent_change := fmul L (fdiv L (fsub L e s) s) (hundred L) in
              inr {| content := page L name starting_date end_date investment s e gains
                                  percent_change (fadd L investment gains);
                     status_code := 200 |}
        | _, _ => inl (OtherException "TypeError")   (* [None] as an operand *)
        end.

(** [calculate_gains]: an [HTTPException] goes through, anything else
    leaves as the [HTTPException] of status 500. *)
Definition calculate_gains (L : library) (data : exc + list (row L))
    (name starting_date end_date : string) (investment : float L) : exc + HTMLResponse :=
  match gains_body L data name starting_date end_date investment with
  | inr response => inr response
  | inl (HTTPException code detail) => inl (HTTPException code detail)
  | inl (OtherException _) =>
      inl (HTTPException 500 "Internal server error while calculating gains")
  end.

(** The status the client of [/ex2/gains] sees. *)
Definition status (r : exc + HTMLResponse) : option Z :=
  match r with
  | inr response => Some (status_code response)
  | inl (HTTPException code _) => Some code
  | inl (OtherException _) => None
  end.

(** The rows of a company within two dates, and at one date. *)
Definition rows_within {L} (df : list (row L)) (name : string) (a b : Z) : list (row L) :=
  filter (λ r, Name r = name ∧ (a ≤ date r)%Z ∧ (date r ≤ b)%Z) df.

Definition rows_at {L} (df : list (row L)) (name : string) (d : Z) : list (row L) :=
  filter (λ r, Name r = name ∧ date r = d) df.

(** An override that hands a path to the time field of [WindowSettings]. *)
Definition path_start_params : gmap string value := {[ "start" := VPath "data/raw.csv" ]}.

(** A sample of the library for concrete runs: integers for the floats,
    two dates that parse, and a page that is the company name. *)
Definition sample_library : library := {|
  float := Z;
  fdiv := Z.div;
  fmul := Z.mul;
  fsub := Z.sub;
  fadd := Z.add;
  hundred := 100%Z;
  is_zero := Z.eqb 0;
  strptime := λ s,
    if String.eqb s "2013-02-08" then inr 20130208%Z
    else if String.eqb s "2018-02-07" then inr 20180207%Z
    else inl ("time data '" ++ s ++ "' does not match format '%Y-%m-%d'");
  page := λ name _ _ _ _ _ _ _ _, name
|}.

Definition sample_frame : list (row sample_library) :=
  [ Build_row sample_library "AAPL" 20130208 (Some 2%Z) (Some 3%Z);
    Build_row sample_library "AAPL" 20180207 (Some 4%Z) (Some 5%Z);
    Build_row sample_library "MSFT" 20130208 None None ].

(** ** The data preparation script of [scripts/data_prep.py] *)

(** How a run of the command ends: its body returns, [sys.exit] is called,
    or an exception leaves the function. *)
Inductive ending :=
  | Finished
  | Exited (code : Z)
  | Uncaught (e : exn).

(** [exc.with_traceback(tb)]: the method takes exactly one argument. *)
Definition with_traceback (exc : exn) (tb : option unit) : exn + exn :=
  match tb with
  | Some _ => inr exc
  | None => inl TypeError
  end.

(** The [except Exception as exc] block of [prepare_data]: after the first
    [logger.error], the argument of the second one, [exc.with_traceback()],
    is evaluated, and [sys.exit(1)] comes after it. *)
Definition script_handler (exc : exn) : ending :=
  match with_traceback exc None with
  | inl e => Uncaught e
  | inr _ => Exited 1
  end.

(** [prepare_data] of the script: the settings are loaded, then [work]
    (reading the data, splitting it, writing the two files) runs on them,
    all inside the [try]. *)
Definition data_prep (constructor : time_type → value → exn + value)
    (disk : filesystem) (config_path in_path out_train out_test : string)
    (work : instance → exn + unit) : ending :=
  match (script_settings constructor disk config_path in_path out_train out_test).2 with
  | inl exc => script_handler exc
  | inr settings =>
      match work settings with
      | inl exc => script_handler exc
      | inr _ => Finished
      end
  end.

(** The number of warnings a trace shows. *)
Definition warnings (tr : list event) : nat :=
  length (omap (λ ev, match ev with Warned => Some tt | Opened _ => None end) tr).


(** ** Facts about the dictionary comprehensions *)

Lemma keep_field_Some fs kv s v :
  keep_field fs kv = Some (s, v) ↔ kv = (KStr s, v) ∧ s ∈ fs.
Proof.
  destruct kv as [[s'|z] v']; unfold keep_field; simpl.
  - case_bool_decide; split.
    + intros [= -> ->]. done.
    + intros [[= -> ->] _]. done.
    + done.
    + intros [[= -> ->] ?]. done.
  - split; [done | by intros [? _]].
Qed.

Lemma keep_field_NoDup fs (l : list (ykey * value)) :
  NoDup (l.*1) → NoDup ((omap (keep_field fs) l).*1).
Proof.
  induction l as [|[k v] l IH]; simpl; [constructor|].
  intros Hnd. apply NoDup_cons in Hnd as [Hk Hnd].
  destruct (keep_field fs (k, v)) as [[s w]|] eqn:E; simpl; [|by apply IH].
  apply keep_field_Some in E as [[= -> ->] _].
  apply NoDup_cons. split; [|by apply IH].
  intros Hin. apply Hk.
  apply list_elem_of_fmap in Hin as [[s' w'] [-> Hin]].
  apply list_elem_of_omap in Hin as [kv [Hkv E]].
  apply keep_field_Some in E as [-> _].
  apply list_elem_of_fmap. by exists (KStr s', w').
Qed.

Lemma lookup_recognised_Some fs d s v :
  recognised fs d !! s = Some v ↔ s ∈ fs ∧ d !! KStr s = Some v.
Proof.
  unfold recognised.
  rewrite <- elem_of_list_to_map
    by (apply keep_field_NoDup, NoDup_fst_map_to_list).
  rewrite list_elem_of_omap. split.
  - intros [kv [Hkv E]]. apply keep_field_Some in E as [-> ?].
    by apply elem_of_map_to_list in Hkv.
  - intros [? Hd]. exists (KStr s, v). split.
    + by apply elem_of_map_to_list.
    + by apply keep_field_Some.
Qed.

Lemma lookup_recognised fs d s :
  recognised fs d !! s = if bool_decide (s ∈ fs) then d !! KStr s else None.
Proof.
  apply option_eq. intros v. rewrite lookup_recognised_Some.
  case_bool_decide; naive_solver.
Qed.

Lemma lookup_non_null params f :
  non_null params !! f =
    match params !! f with
    | Some v => if is_none v then None else Some v
    | None => None
    end.
Proof.
  unfold non_null. apply option_eq. intros v.
  rewrite map_lookup_filter_Some. simpl.
  destruct (params !! f) as [w|]; [|naive_solver].
  destruct (is_none w) eqn:E; split.
  - intros [[= ->] ?]. congruence.
  - done.
  - intros [[= ->] _]. done.
  - intros [= ->]. done.
Qed.

Lemma lookup_non_null_Some params f v :
  params !! f = Some v → is_none v = false → non_null params !! f = Some v.
Proof. intros H1 H2. by rewrite lookup_non_null, H1, H2. Qed.

Lemma elem_of_fields cls f : f ∈ fields cls ↔ f ∈ field_names cls.
Proof. unfold fields. by rewrite elem_of_list_to_set. Qed.

(** ** Facts about the effect monad *)

Lemma bind_inr {A B} (m : M A) (k : A → M B) tr b :
  bind m k = (tr, inr b) ↔
  ∃ tr1 a tr2, m = (tr1, inr a) ∧ k a = (tr2, inr b) ∧ tr = app tr1 tr2.
Proof.
  destruct m as [tr1 [e|a]]; simpl.
  - split; [done | intros (?&?&?&[=]&_)].
  - destruct (k a) as [tr2 r] eqn:E. split.
    + intros [= <- ->]. by exists tr1, a, tr2.
    + intros (?&?&?&[= <- <-]&Hk&->). rewrite E in Hk. by injection Hk as -> ->.
Qed.

Lemma bind_ok {A B} (m : M A) (k : A → M B) tr1 a :
  m = (tr1, inr a) → bind m k = (app tr1 (k a).1, (k a).2).
Proof. intros ->. simpl. by destruct (k a). Qed.

Lemma bind_raise {A B} (m : M A) (k : A → M B) tr e :
  m = (tr, inl e) → bind m k = (tr, inl e).
Proof. by intros ->. Qed.

(** ** The per-file merge *)

Lemma read_file_mapping fs disk p settings d :
  disk p = inr (YMap d) →
  read_file fs disk p settings =
    (file_events fs p settings d, inr (recognised fs d ∪ settings)).
Proof.
  intros Hd. unfold read_file, file_events. rewrite Hd. simpl.
  by case_bool_decide.
Qed.

Lemma read_file_inr fs disk p settings tr settings' :
  read_file fs disk p settings = (tr, inr settings') →
  ∃ d, disk p = inr (YMap d) ∧ tr = file_events fs p settings d ∧
       settings' = recognised fs d ∪ settings.
Proof.
  destruct (disk p) as [e|[d|]] eqn:Hd.
  - unfold read_file. rewrite Hd. simpl. done.
  - rewrite (read_file_mapping _ _ _ _ d Hd). intros [= <- <-]. by exists d.
  - unfold read_file. rewrite Hd. simpl. done.
Qed.

Lemma read_files_cons_inr fs disk p ps settings tr settings' :
  read_files fs disk (p :: ps) settings = (tr, inr settings') →
  ∃ d tr', disk p = inr (YMap d) ∧
    read_files fs disk ps (recognised fs d ∪ settings) = (tr', inr settings') ∧
    tr = app (file_events fs p settings d) tr'.
Proof.
  simpl. intros (tr1 & s1 & tr2 & H1 & H2 & ->)%bind_inr.
  apply read_file_inr in H1 as (d & Hd & -> & ->). by exists d, tr2.
Qed.

Lemma read_files_app fs disk l1 l2 settings :
  read_files fs disk (l1 ++ l2) settings =
  bind (read_files fs disk l1 settings) (read_files fs disk l2).
Proof.
  revert settings. induction l1 as [|p l1 IH]; intros settings; simpl.
  - by destruct (read_files fs disk l2 settings).
  - destruct (read_file fs disk p settings) as [tr1 [e|s1]]; simpl; [done|].
    rewrite IH. destruct (read_files fs disk l1 s1) as [tr2 [e|s2]]; simpl; [done|].
    destruct (read_files fs disk l2 s2) as [tr3 r]. by rewrite app_assoc.
Qed.

Lemma read_files_total fs disk paths settings :
  all_mappings disk paths →
  ∃ tr settings', read_files fs disk paths settings = (tr, inr settings').
Proof.
  revert settings. induction paths as [|p ps IH]; intros settings Hall; simpl.
  - by eexists _, _.
  - destruct (Hall p) as [d Hd]; [left|].
    rewrite (read_file_mapping _ _ _ _ d Hd). simpl.
    destruct (IH (recognised fs d ∪ settings)) as (tr & s' & ->).
    { intros q Hq. apply Hall. by right. }
    by eexists _, _.
Qed.


Lemma read_files_unsupplied fs disk paths settings tr settings' f :
  read_files fs disk paths settings = (tr, inr settings') →
  no_file_has disk paths f →
  settings' !! f = settings !! f.
Proof.
  revert settings tr. induction paths as [|p ps IH]; intros settings tr H Hno.
  - by injection H as _ ->.
  - apply read_files_cons_inr in H as (d & tr' & Hd & H & _).
    rewrite (IH _ _ H) by (intros q d' Hq; apply Hno; by right).
    rewrite lookup_union_r; [done|].
    rewrite lookup_recognised. case_bool_decide; [|done].
    eapply Hno; [left|done].
Qed.

Lemma read_files_last_supplier fs disk pre p post settings tr settings' d f v :
  read_files fs disk (pre ++ p :: post) settings = (tr, inr settings') →
  disk p = inr (YMap d) → f ∈ fs → d !! KStr f = Some v →
  no_file_has disk post f →
  settings' !! f = Some v.
Proof.
  intros H Hd Hf Hv Hpost.
  rewrite read_files_app in H.
  apply bind_inr in H as (tr1 & s1 & tr2 & _ & H & _).
  apply read_files_cons_inr in H as (d' & tr' & Hd' & H & _).
  rewrite Hd in Hd'. injection Hd' as <-.
  rewrite (read_files_unsupplied _ _ _ _ _ _ f H Hpost).
  apply lookup_union_Some_l. apply lookup_recognised_Some. done.
Qed.



(** ** Construction of the record *)

Lemma init_ok_spec cls settings :
  init_ok cls settings = true ↔
  dom settings ⊆ fields cls ∧ ∀ f, required cls f → f ∈ dom settings.
Proof.
  unfold init_ok, required.
  rewrite andb_true_iff, bool_decide_eq_true, forallb_forall.
  split; intros [Hsub Hreq]; (split; [done|]).
  - intros f (fd & Hin & <- & Hdef).
    specialize (Hreq fd). rewrite Hdef, bool_decide_eq_true in Hreq.
    apply Hreq. by apply list_elem_of_In.
  - intros fd Hin. destruct (fdefault fd) eqn:Hdef; [done|].
    apply bool_decide_eq_true, Hreq. exists fd.
    by rewrite list_elem_of_In.
Qed.

Lemma attributes_keeps cls settings f v :
  f ∈ field_names cls → settings !! f = Some v →
  attributes cls settings !! f = Some v.
Proof.
  unfold attributes, field_names. intros Hf Hv.
  induction (hints cls) as [|fd l IH]; simpl in *.
  - by apply elem_of_nil in Hf.
  - unfold set_attribute at 1.
    destruct (decide (fname fd = f)) as [->|Hne].
    + rewrite Hv. by rewrite lookup_insert_eq.
    + apply elem_of_cons in Hf as [?|Hf]; [done|].
      destruct (settings !! fname fd), (fdefault fd);
        rewrite ?lookup_insert_ne by done; by apply IH.
Qed.

Lemma attributes_origin cls settings f v :
  attributes cls settings !! f = Some v →
  settings !! f = Some v ∨
  (settings !! f = None ∧
   ∃ fd, fd ∈ hints cls ∧ fname fd = f ∧ fdefault fd = Some v).
Proof.
  unfold attributes.
  induction (hints cls) as [|fd l IH]; simpl; [by rewrite lookup_empty|].
  assert (Hrec : foldr (set_attribute settings) ∅ l !! f = Some v →
          settings !! f = Some v ∨
          settings !! f = None ∧
          ∃ fd0, fd0 ∈ fd :: l ∧ fname fd0 = f ∧ fdefault fd0 = Some v).
  { intros H'. destruct (IH H') as [?|[? (fd0 & ? & ? & ?)]]; [by left|right].
    split; [done|]. exists fd0. split; [by right|done]. }
  unfold set_attribute at 1. intros H.
  destruct (settings !! fname fd) as [w|] eqn:Es;
    [|destruct (fdefault fd) as [w|] eqn:Ed]; [| |by apply Hrec].
  - destruct (decide (fname fd = f)) as [<-|Hne].
    + rewrite lookup_insert_eq in H. left. congruence.
    + rewrite lookup_insert_ne in H by done. by apply Hrec.
  - destruct (decide (fname fd = f)) as [<-|Hne].
    + rewrite lookup_insert_eq in H. injection H as ->. right.
      split; [done|]. exists fd. split; [left|done].
    + rewrite lookup_insert_ne in H by done. by apply Hrec.
Qed.

Lemma attributes_declared cls settings f :
  is_Some (attributes cls settings !! f) → f ∈ field_names cls.
Proof.
  unfold attributes, field_names.
  induction (hints cls) as [|fd l IH]; simpl.
  - rewrite lookup_empty. by intros [? ?].
  - unfold set_attribute at 1. intros H.
    destruct (decide (fname fd = f)) as [<-|Hne]; [left|right].
    destruct (settings !! fname fd), (fdefault fd);
      rewrite ?lookup_insert_ne in H by done; by apply IH.
Qed.

Lemma construct_inr cls settings inst :
  construct cls settings = inr inst ↔
  init_ok cls settings = true ∧ inst = attributes cls settings.
Proof.
  unfold construct. destruct (init_ok cls settings); split.
  - by intros [= <-].
  - by intros [_ ->].
  - done.
  - by intros [? _].
Qed.

Lemma construct_inl cls settings e :
  construct cls settings = inl e ↔ init_ok cls settings = false ∧ e = TypeError.
Proof.
  unfold construct. destruct (init_ok cls settings); split.
  - done.
  - by intros [? _].
  - by intros [= <-].
  - by intros [_ ->].
Qed.

(** ** Time conversion *)

Lemma declaration_Some cls f fd :
  NoDup (field_names cls) →
  declaration cls f = Some fd ↔ fd ∈ hints cls ∧ fname fd = f.
Proof.
  unfold declaration, field_names.
  induction (hints cls) as [|fd' l IH]; simpl; intros Hnd.
  - split; [done|]. intros [H _]. by apply elem_of_nil in H.
  - apply NoDup_cons in Hnd as [Hfd' Hnd]. case_bool_decide as Hf.
    + split.
      * intros [= <-]. split; [left|done].
      * intros [[->|Hin]%elem_of_cons Hn]; [done|].
        exfalso. apply Hfd'. rewrite Hf, <- Hn.
        apply list_elem_of_fmap. by exists fd.
    + rewrite (IH Hnd). split.
      * intros [? ?]. split; [by right|done].
      * intros [[->|Hin]%elem_of_cons Hn]; done.
Qed.

Lemma declaration_None cls f :
  declaration cls f = None ↔ f ∉ field_names cls.
Proof.
  unfold declaration, field_names.
  induction (hints cls) as [|fd l IH]; simpl.
  - split; [intros _; apply not_elem_of_nil | done].
  - case_bool_decide as Hf.
    + split; [done|]. intros H. exfalso. apply H. rewrite <- Hf. left.
    + rewrite IH, not_elem_of_cons. naive_solver.
Qed.

Lemma time_type_of_Some cls f t :
  NoDup (field_names cls) →
  time_type_of cls f = Some t ↔
  ∃ fd, fd ∈ hints cls ∧ fname fd = f ∧ ftype fd = TTime t.
Proof.
  intros Hnd. unfold time_type_of. split.
  - destruct (declaration cls f) as [fd|] eqn:Ed; [|done].
    apply declaration_Some in Ed as [Hin Hf]; [|done].
    destruct fd as [g ty dflt]. destruct ty; try done.
    intros [= ->]. by eexists.
  - intros (fd & Hin & Hf & Ht).
    rewrite (proj2 (declaration_Some cls f fd Hnd)) by done.
    destruct fd as [g ty dflt]. simpl in Ht. by rewrite Ht.
Qed.

Section Conversion.

Variable constructor : time_type → value → exn + value.

Lemma coerce_time cls f t v :
  time_type_of cls f = Some t → is_none v = false →
  coerce constructor cls f v = constructor t v.
Proof. unfold coerce. by intros -> ->. Qed.

Lemma coerce_plain cls f v :
  time_type_of cls f = None → coerce constructor cls f v = inr v.
Proof. unfold coerce. by intros ->. Qed.

Lemma coerce_null cls f : coerce constructor cls f VNone = inr VNone.
Proof. unfold coerce. by destruct (time_type_of cls f). Qed.

Lemma convert_loop_dom l settings settings' :
  convert_loop constructor l settings = inr settings' →
  dom settings' = dom settings.
Proof.
  revert settings. induction l as [|[g t] l IH]; intros settings; simpl.
  - by intros [= ->].
  - destruct (settings !! g) as [v|] eqn:Eg; [|done].
    destruct (is_none v); [by apply IH|].
    destruct (constructor t v) as [e|w]; [done|].
    intros H%IH. rewrite H, dom_insert_L.
    apply (elem_of_dom_2 (D:=gset string)) in Eg. set_solver.
Qed.

Lemma convert_loop_other l settings settings' f :
  f ∉ l.*1 →
  convert_loop constructor l settings = inr settings' →
  settings' !! f = settings !! f.
Proof.
  revert settings. induction l as [|[g t] l IH]; intros settings; simpl.
  - by intros _ [= ->].
  - intros [Hne Hf]%not_elem_of_cons.
    destruct (settings !! g) as [v|] eqn:Eg; [|done].
    destruct (is_none v); [by apply IH|].
    destruct (constructor t v) as [e|w]; [done|].
    intros H%IH; [|done]. by rewrite H, lookup_insert_ne.
Qed.

Lemma convert_loop_entry l settings settings' f t v :
  NoDup (l.*1) → (f, t) ∈ l → settings !! f = Some v →
  convert_loop constructor l settings = inr settings' →
  ∃ w, (if is_none v then inr v else constructor t v) = inr w ∧
       settings' !! f = Some w.
Proof.
  revert settings. induction l as [|[g t'] l IH]; intros settings; simpl.
  - intros _ H. by apply elem_of_nil in H.
  - intros [Hg Hnd]%NoDup_cons Hin Hv.
    apply elem_of_cons in Hin as [[= <- <-]|Hin].
    + rewrite Hv. destruct (is_none v).
      * intros H. exists v. split; [done|].
        by rewrite (convert_loop_other _ _ _ _ Hg H).
      * destruct (constructor t v) as [e|w]; [done|].
        intros H. exists w. split; [done|].
        by rewrite (convert_loop_other _ _ _ _ Hg H), lookup_insert_eq.
    + assert (g ≠ f) as Hne.
      { intros ->. apply Hg, list_elem_of_fmap. by exists (f, t). }
      destruct (settings !! g) as [v'|] eqn:Eg; [|done].
      destruct (is_none v'); [by apply IH|].
      destruct (constructor t' v') as [e|w']; [done|].
      apply IH; [done|done|]. by rewrite lookup_insert_ne.
Qed.

Lemma elem_of_time_field_types cls settings f t :
  (f, t) ∈ time_field_types cls settings ↔
  (∃ fd, fd ∈ hints cls ∧ fname fd = f ∧ ftype fd = TTime t) ∧
  f ∈ dom settings.
Proof.
  unfold time_field_types. rewrite list_elem_of_omap. split.
  - intros (fd & Hin & H). destruct (ftype fd) eqn:Et; try done.
    case_bool_decide; [|done]. injection H as <- <-.
    split; [by exists fd|done].
  - intros [(fd & Hin & <- & Et) Hdom]. exists fd. split; [done|].
    rewrite Et. by rewrite bool_decide_eq_true_2.
Qed.

Lemma time_field_types_NoDup cls settings :
  NoDup (field_names cls) → NoDup ((time_field_types cls settings).*1).
Proof.
  unfold time_field_types, field_names.
  induction (hints cls) as [|fd l IH]; simpl; [constructor|].
  intros [Hfd Hnd]%NoDup_cons.
  destruct (ftype fd) eqn:Et; try by apply IH.
  case_bool_decide; [|by apply IH]. simpl.
  apply NoDup_cons. split; [|by apply IH].
  intros Hin. apply Hfd.
  apply list_elem_of_fmap in Hin as [[g t'] [-> Hin]].
  apply list_elem_of_omap in Hin as (fd' & Hin & H').
  apply list_elem_of_fmap. exists fd'. split; [|done].
  destruct (ftype fd'); try done. case_bool_decide; [|done].
  by injection H' as <- _.
Qed.

(** [_convert_to_time] neither adds nor removes a key. *)
Lemma convert_dom cls settings settings' :
  _convert_to_time constructor cls settings = inr settings' →
  dom settings' = dom settings.
Proof. apply convert_loop_dom. Qed.

Lemma convert_absent cls settings settings' f :
  _convert_to_time constructor cls settings = inr settings' →
  settings !! f = None → settings' !! f = None.
Proof.
  intros H%convert_dom Hf.
  apply (not_elem_of_dom (D:=gset string)). rewrite H.
  by apply not_elem_of_dom.
Qed.

(** Every entry of the converted dictionary is the entry of the given
    one, passed through [coerce]. *)
Lemma convert_lookup cls settings settings' f v :
  NoDup (field_names cls) →
  _convert_to_time constructor cls settings = inr settings' →
  settings !! f = Some v →
  ∃ w, coerce constructor cls f v = inr w ∧ settings' !! f = Some w.
Proof.
  intros Hnd H Hv. unfold coerce.
  destruct (time_type_of cls f) as [t|] eqn:Et.
  - apply time_type_of_Some in Et; [|done].
    eapply convert_loop_entry; [| |exact Hv|exact H].
    + by apply time_field_types_NoDup.
    + apply elem_of_time_field_types. split; [done|].
      by apply elem_of_dom_2 in Hv.
  - exists v. split; [done|].
    rewrite (convert_loop_other (time_field_types cls settings) settings _ f);
      [done| |exact H].
    intros [[f' t'] [-> Hin]]%list_elem_of_fmap.
    apply elem_of_time_field_types in Hin as [Hdecl _].
    apply time_type_of_Some in Hdecl; [|done]. simpl in Et. congruence.
Qed.

End Conversion.

Section Properties.

Variable constructor : time_type → value → exn + value.

(** *** How [load] decomposes *)

Lemma merge_inr cls disk fp params tr merged :
  merge cls disk fp params = (tr, inr merged) ↔
  ∃ acc, read_files (fields cls) disk (paths_of fp) ∅ = (tr, inr acc) ∧
         merged = non_null params ∪ acc.
Proof.
  unfold merge. rewrite bind_inr. split.
  - intros (tr1 & acc & tr2 & H & [= <- <-] & ->).
    exists acc. by rewrite app_nil_r.
  - intros (acc & H & ->). exists tr, acc, []. by rewrite app_nil_r.
Qed.

Lemma load_inr cls disk fp params tr inst :
  load constructor cls disk fp params = (tr, inr inst) ↔
  is_dataclass cls = true ∧
  ∃ merged converted,
    merge cls disk fp params = (tr, inr merged) ∧
    _convert_to_time constructor cls merged = inr converted ∧
    init_ok cls converted = true ∧
    inst = attributes cls converted.
Proof.
  unfold load. destruct (is_dataclass cls); cbn [negb];
    [|split; [done | by intros [? _]]].
  rewrite bind_inr. split.
  - intros (tr1 & merged & tr2 & Hm & H & ->). split; [done|].
    apply bind_inr in H as (tr3 & conv & tr4 & Hc & H & ->).
    injection Hc as <- Hc.
    destruct (construct cls conv) as [e|i] eqn:Ec.
    { by destruct e. }
    injection H as <- <-. apply construct_inr in Ec as [? ->].
    exists merged, conv. by rewrite !app_nil_r.
  - intros (_ & merged & conv & Hm & Hc & Hok & ->).
    exists tr, merged, []. split; [done|]. split; [|by rewrite app_nil_r].
    apply bind_inr. exists [], conv, []. split; [by rewrite Hc|].
    unfold construct. by rewrite Hok.
Qed.

(** When no exception is raised before the construction, the outcome of
    [load] is the outcome of the construction, a [TypeError] turned into
    [MissingParamError]. *)
Lemma load_construct cls disk fp params tr merged converted :
  is_dataclass cls = true →
  merge cls disk fp params = (tr, inr merged) →
  _convert_to_time constructor cls merged = inr converted →
  load constructor cls disk fp params =
    (tr, if init_ok cls converted then inr (attributes cls converted)
         else inl MissingParamError).
Proof.
  intros Hdc Hm Hc. unfold load. rewrite Hdc. cbn [negb].
  rewrite (bind_ok _ _ _ _ Hm). rewrite Hc. simpl.
  unfold construct. destruct (init_ok cls converted); simpl;
    by rewrite app_nil_r.
Qed.

(** *** Unknown keys of a file *)

Lemma recognised_agree fs d d' :
  (∀ s, s ∈ fs → d !! KStr s = d' !! KStr s) →
  recognised fs d = recognised fs d'.
Proof.
  intros H. apply map_eq. intros s. rewrite !lookup_recognised.
  case_bool_decide; [by apply H | done].
Qed.

Lemma read_file_agree fs disk disk' p settings :
  agree_on fs (disk p) (disk' p) →
  read_file fs disk p settings = read_file fs disk' p settings.
Proof.
  unfold agree_on, read_file. intros H.
  destruct (disk p) as [e|[d|]], (disk' p) as [e'|[d'|]];
    try done; try (by injection H as ->).
  by rewrite (recognised_agree fs d d' H).
Qed.

Lemma read_files_agree fs disk disk' paths settings :
  (∀ p, agree_on fs (disk p) (disk' p)) →
  read_files fs disk paths settings = read_files fs disk' paths settings.
Proof.
  intros H. revert settings.
  induction paths as [|p ps IH]; intros settings; simpl; [done|].
  rewrite (read_file_agree fs disk disk' p settings (H p)).
  destruct (read_file fs disk' p settings) as [tr [e|s']]; simpl; [done|].
  by rewrite IH.
Qed.

Lemma load_fields cls disk fp params tr inst k :
  load constructor cls disk fp params = (tr, inr inst) →
  k ∉ field_names cls → inst !! k = None.
Proof.
  intros (_ & merged & conv & _ & _ & _ & ->)%load_inr Hk.
  destruct (attributes cls conv !! k) eqn:E; [|done].
  exfalso. apply Hk. eapply attributes_declared. by rewrite E.
Qed.

(** C5 (unknown-key tolerance for files): the keys of a config file that
    are not field names of the schema have no effect on [load].  Two
    file systems whose documents differ only at such keys give the same
    events and the same outcome, so these keys cause no failure and change
    nothing in the instance; and the returned instance has no attribute
    outside the schema. *)
Theorem unknown_file_keys_ignored cls disk disk' fp params :
  (∀ p, agree_on (fields cls) (disk p) (disk' p)) →
  load constructor cls disk fp params = load constructor cls disk' fp params ∧
  ∀ tr inst k, load constructor cls disk fp params = (tr, inr inst) →
               k ∉ field_names cls → inst !! k = None.
Proof.
  intros H. split; [|apply load_fields].
  unfold load, merge.
  by rewrite (read_files_agree _ disk disk' _ _ H).
Qed.

(** *** Schema validation *)

(** C6 (schema validation precedes I/O): on a class that is not a
    dataclass, [load] raises [NotDataClassError] and has opened no file
    and logged nothing, whatever the file system holds. *)
Theorem schema_validation_precedes_io cls disk fp params :
  is_dataclass cls = false →
  load constructor cls disk fp params = ([], inl NotDataClassError).
Proof. intros H. unfold load. by rewrite H. Qed.

(** *** Required fields and unknown overrides *)

Lemma not_overridden_lookup params f :
  not_overridden params f ↔ non_null params !! f = None.
Proof.
  unfold not_overridden. rewrite lookup_non_null.
  destruct (params !! f) as [v|]; [|naive_solver].
  destruct (is_none v) eqn:E; split; try done.
  - intros _ w [= <-]. done.
  - intros H. specialize (H v eq_refl). congruence.
Qed.

Lemma merge_unsupplied cls disk fp params tr merged f :
  merge cls disk fp params = (tr, inr merged) →
  no_file_has disk (paths_of fp) f → not_overridden params f →
  merged !! f = None.
Proof.
  intros (acc & Hacc & ->)%merge_inr Hno Hov%not_overridden_lookup.
  apply lookup_union_None. split; [done|].
  by rewrite (read_files_unsupplied _ _ _ _ _ _ f Hacc Hno).
Qed.

Lemma merge_overridden cls disk fp params tr merged f v :
  merge cls disk fp params = (tr, inr merged) →
  params !! f = Some v → is_none v = false →
  merged !! f = Some v.
Proof.
  intros (acc & _ & ->)%merge_inr Hv Hn.
  apply lookup_union_Some_l. by apply lookup_non_null_Some.
Qed.

Lemma load_missing cls disk fp params f :
  required cls f →
  no_file_has disk (paths_of fp) f → not_overridden params f →
  ∀ tr inst, load constructor cls disk fp params ≠ (tr, inr inst).
Proof.
  intros Hreq Hno Hov tr inst
    (_ & merged & conv & Hm & Hc & [_ Hok]%init_ok_spec & _)%load_inr.
  apply Hok, elem_of_dom in Hreq as [v Hv].
  by rewrite (convert_absent _ _ _ _ f Hc
                (merge_unsupplied _ _ _ _ _ _ f Hm Hno Hov)) in Hv.
Qed.

(** *** Nulls *)


(** *** Time conversion *)

(** C4 (time coercion): a field whose declared type is one of the time
    types and which holds a non-null value after the merge has, in the
    instance [load] returns, the result of the constructor of that type
    on this value; and [_convert_to_time] adds no field: what is absent
    from the merged dictionary is absent after it. *)
Theorem time_coercion cls disk fp params tr merged :
  NoDup (field_names cls) →
  merge cls disk fp params = (tr, inr merged) →
  (∀ f t v tr' inst,
     time_type_of cls f = Some t →
     merged !! f = Some v → is_none v = false →
     load constructor cls disk fp params = (tr', inr inst) →
     ∃ w, constructor t v = inr w ∧ inst !! f = Some w) ∧
  (∀ converted g,
     _convert_to_time constructor cls merged = inr converted →
     merged !! g = None → converted !! g = None).
Proof.
  intros Hnd Hm. split.
  - intros f t v tr' inst Ht Hv Hn
      (_ & merged' & conv & Hm' & Hc & _ & ->)%load_inr.
    rewrite Hm in Hm'. injection Hm' as _ <-.
    destruct (convert_lookup _ _ _ _ f v Hnd Hc Hv) as (w & Hw & Hcf).
    rewrite (coerce_time _ _ _ _ _ Ht Hn) in Hw.
    exists w. split; [done|]. apply attributes_keeps; [|done].
    apply time_type_of_Some in Ht as (fd & Hin & <- & _); [|done].
    apply list_elem_of_fmap. by exists fd.
  - intros conv g Hc. by apply (convert_absent _ _ _ _ g Hc).
Qed.

(** *** The instance *)


(** *** Precedence *)

Lemma load_lookup cls disk fp params tr inst merged tr' f v :
  NoDup (field_names cls) → f ∈ field_names cls →
  load constructor cls disk fp params = (tr, inr inst) →
  merge cls disk fp params = (tr', inr merged) →
  merged !! f = Some v →
  ∃ w, inst !! f = Some w ∧ stored_as constructor cls f v w.
Proof.
  intros Hnd Hf (_ & merged' & conv & Hm' & Hc & _ & ->)%load_inr Hm Hv.
  rewrite Hm in Hm'. injection Hm' as _ <-.
  destruct (convert_lookup _ _ _ _ f v Hnd Hc Hv) as (w & Hw & Hcf).
  exists w. split; [by apply attributes_keeps|].
  unfold stored_as. destruct (time_type_of cls f) as [t|] eqn:Et.
  - destruct (is_none v) eqn:Hn.
    + destruct v; try done. rewrite coerce_null in Hw. by injection Hw as ->.
    + by rewrite (coerce_time _ _ _ _ _ Et Hn) in Hw.
  - rewrite (coerce_plain _ _ _ _ Et) in Hw. by injection Hw as ->.
Qed.

Lemma load_merge cls disk fp params tr inst :
  load constructor cls disk fp params = (tr, inr inst) →
  ∃ merged, merge cls disk fp params = (tr, inr merged).
Proof. intros (_ & merged & _ & Hm & _)%load_inr. by exists merged. Qed.

(** C1 (override precedence), as the code has it: a schema field that
    some config file supplies and that the overrides pass with a non-null
    value [v] holds, in the instance [load] returns, the override [v]
    (whatever the files say and in whatever order they are listed): as it
    is when the declared type is not a time type, and as the time object
    that the constructor of the declared type builds from [v] when it
    is. *)
Theorem override_precedence cls disk fp fp' params f v tr inst :
  NoDup (field_names cls) →
  f ∈ field_names cls →
  some_file_has disk (paths_of fp) f →
  params !! f = Some v → is_none v = false →
  paths_of fp' ≡ₚ paths_of fp →
  load constructor cls disk fp' params = (tr, inr inst) →
  ∃ w, inst !! f = Some w ∧ stored_as constructor cls f v w.
Proof.
  intros Hnd Hf _ Hv Hn _ Hl.
  destruct (load_merge _ _ _ _ _ _ Hl) as [merged Hm].
  eapply load_lookup; try done.
  by eapply merge_overridden.
Qed.

(** C2 (last-write-wins across files), as the code has it: when two
    files both have the schema field [f], with different values, and
    [load] is given the two in order and no override for [f], the
    instance holds for [f] the value [v2] of the later file, as it is
    when the declared type is not a time type or [v2] is null, and as the
    time object that the constructor of the declared type builds from
    [v2] otherwise. *)
Theorem last_write_wins cls disk p1 p2 d1 d2 params f v1 v2 tr inst :
  NoDup (field_names cls) →
  f ∈ field_names cls →
  disk p1 = inr (YMap d1) → disk p2 = inr (YMap d2) →
  d1 !! KStr f = Some v1 → d2 !! KStr f = Some v2 → v1 ≠ v2 →
  not_overridden params f →
  load constructor cls disk (ManyPaths [p1; p2]) params = (tr, inr inst) →
  ∃ w, inst !! f = Some w ∧ stored_as constructor cls f v2 w.
Proof.
  intros Hnd Hf _ Hd2 _ Hv2 _ Hov Hl.
  destruct (load_merge _ _ _ _ _ _ Hl) as [merged Hm].
  eapply load_lookup; try done.
  apply merge_inr in Hm as (acc & Hacc & ->).
  apply not_overridden_lookup in Hov. rewrite lookup_union_r by done.
  change (paths_of (ManyPaths [p1; p2])) with ([p1] ++ p2 :: [])%list in Hacc.
  eapply read_files_last_supplier; [exact Hacc|exact Hd2| |exact Hv2|].
  - by apply elem_of_fields.
  - intros q d' Hq. by apply elem_of_nil in Hq.
Qed.

End Properties.



(** ** Runs on the sample inputs *)

Lemma schema_validation_precedes_io_witness :
  load pandas AbstractSettings (sample_disk false) (OneStr "missing.yaml") cli_params
  = ([], inl NotDataClassError).
Proof. apply schema_validation_precedes_io. reflexivity. Defined.

Lemma sample_disks_agree p :
  agree_on (fields PreparationSettings) (sample_disk true p) (sample_disk false p).
Proof.
  unfold sample_disk.
  destruct (String.eqb p "config.yaml").
  - intros s Hs. apply elem_of_fields in Hs.
    unfold field_names in Hs. simpl in Hs.
    repeat (apply elem_of_cons in Hs as [->|Hs]); try reflexivity.
    by apply elem_of_nil in Hs.
  - repeat (match goal with |- context [if ?b then _ else _] => destruct b end);
      simpl; done.
Qed.

Lemma unknown_file_keys_ignored_witness :
  load pandas PreparationSettings (sample_disk true) (OneStr "config.yaml") cli_params
  = load pandas PreparationSettings (sample_disk false) (OneStr "config.yaml") cli_params.
Proof.
  apply (unknown_file_keys_ignored pandas PreparationSettings
           (sample_disk true) (sample_disk false)).
  apply sample_disks_agree.
Defined.

Lemma only_path_in (p q : string) : q ∈ paths_of (OneStr p) → q = p.
Proof.
  unfold paths_of. simpl. destruct (negb (String.eqb p "")).
  - by intros ->%list_elem_of_singleton.
  - by intros ?%elem_of_nil.
Qed.

Lemma preparation_fields_required fd :
  fd ∈ hints PreparationSettings → fdefault fd = None.
Proof.
  simpl. intros H. repeat (apply elem_of_cons in H as [->|H]); try reflexivity.
  by apply elem_of_nil in H.
Qed.


Lemma time_coercion_witness :
  ∃ inst,
    load pandas WindowSettings window_disk (OneStr "window.yaml") ∅
    = ([Opened "window.yaml"], inr inst) ∧
    inst !! "start" = Some (VTime Timestamp "2024-01-01").
Proof.
  exists (attributes WindowSettings
            (<["start" := VTime Timestamp "2024-01-01"]>
               (merged_from WindowSettings [window_yaml] ∅))).
  assert (E : load pandas WindowSettings window_disk (OneStr "window.yaml") ∅
              = ([Opened "window.yaml"],
                 inr (attributes WindowSettings
                        (<["start" := VTime Timestamp "2024-01-01"]>
                           (merged_from WindowSettings [window_yaml] ∅)))))
    by reflexivity.
  split; [exact E|].
  destruct (proj1 (time_coercion pandas WindowSettings window_disk
                     (OneStr "window.yaml") ∅ [Opened "window.yaml"]
                     (merged_from WindowSettings [window_yaml] ∅)
                     ltac:(compute_done) eq_refl)
              "start" Timestamp (VStr "2024-01-01") _ _
              eq_refl eq_refl eq_refl E) as (w & [= <-] & Hw).
  exact Hw.
Defined.

Lemma override_precedence_witness :
  ∃ inst,
    load pandas PreparationSettings (sample_disk false)
      (ManyPaths ["second.yaml"; "config.yaml"]) sized_params
    = ([Opened "second.yaml"; Opened "config.yaml"; Warned], inr inst) ∧
    inst !! "test_size" = Some (VFloat "0.5").
Proof.
  exists (attributes PreparationSettings
            (merged_from PreparationSettings [second_yaml; config_yaml] sized_params)).
  assert (E : load pandas PreparationSettings (sample_disk false)
                (ManyPaths ["second.yaml"; "config.yaml"]) sized_params
              = ([Opened "second.yaml"; Opened "config.yaml"; Warned],
                 inr (attributes PreparationSettings
                        (merged_from PreparationSettings [second_yaml; config_yaml]
                           sized_params))))
    by reflexivity.
  split; [exact E|].
  destruct (override_precedence pandas PreparationSettings (sample_disk false)
              (ManyPaths ["config.yaml"; "second.yaml"])
              (ManyPaths ["second.yaml"; "config.yaml"])
              sized_params "test_size" (VFloat "0.5") _ _
              ltac:(compute_done) ltac:(compute_done)
              ltac:(by exists "config.yaml", config_yaml;
                    split; [left|split; [reflexivity|eexists]])
              eq_refl eq_refl (perm_swap _ _ _) E) as (w & Hw & Hs).
  rewrite Hw. f_equal. exact Hs.
Defined.

Lemma last_write_wins_witness :
  ∃ inst,
    load pandas PreparationSettings (sample_disk false)
      (ManyPaths ["config.yaml"; "second.yaml"]) cli_params
    = ([Opened "config.yaml"; Opened "second.yaml"; Warned], inr inst) ∧
    inst !! "test_size" = Some (VFloat "0.3").
Proof.
  exists (attributes PreparationSettings
            (merged_from PreparationSettings [config_yaml; second_yaml] cli_params)).
  assert (E : load pandas PreparationSettings (sample_disk false)
                (ManyPaths ["config.yaml"; "second.yaml"]) cli_params
              = ([Opened "config.yaml"; Opened "second.yaml"; Warned],
                 inr (attributes PreparationSettings
                        (merged_from PreparationSettings [config_yaml; second_yaml]
                           cli_params))))
    by reflexivity.
  split; [exact E|].
  destruct (last_write_wins pandas PreparationSettings (sample_disk false)
              "config.yaml" "second.yaml" config_yaml second_yaml cli_params
              "test_size" (VFloat "0.2") (VFloat "0.3") _ _
              ltac:(compute_done) ltac:(compute_done)
              eq_refl eq_refl eq_refl eq_refl ltac:(by intros [=])
              ltac:(by intros v [=]) E) as (w & Hw & Hs).
  rewrite Hw. f_equal. exact Hs.
Defined.

(** ** Where the literal reading of the precedence properties fails *)

(** With [window.yaml] giving [start] and the override passing the string
    "2024-02-02" for it, the instance holds the [Timestamp] built from the
    override, which is not the override string itself. *)
Lemma override_value_converted :
  "start" ∈ field_names WindowSettings ∧
  some_file_has window_disk (paths_of (OneStr "window.yaml")) "start" ∧
  start_params !! "start" = Some (VStr "2024-02-02") ∧
  ∃ inst,
    load pandas WindowSettings window_disk (OneStr "window.yaml") start_params
    = ([Opened "window.yaml"], inr inst) ∧
    inst !! "start" = Some (VTime Timestamp "2024-02-02") ∧
    inst !! "start" ≠ Some (VStr "2024-02-02").
Proof.
  split; [compute_done|]. split.
  { exists "window.yaml", window_yaml. split; [left|]. split; [reflexivity|by eexists]. }
  split; [reflexivity|].
  exists (attributes WindowSettings
            (<["start" := VTime Timestamp "2024-02-02"]>
               (merged_from WindowSettings [window_yaml] start_params))).
  assert (H : attributes WindowSettings
                (<["start" := VTime Timestamp "2024-02-02"]>
                   (merged_from WindowSettings [window_yaml] start_params))
              !! "start" = Some (VTime Timestamp "2024-02-02")) by reflexivity.
  split; [reflexivity|]. split; [exact H|]. rewrite H. by intros [=].
Qed.

(** With [window.yaml] and [later.yaml] both giving [start] and no
    override, the instance holds the [Timestamp] built from the string of
    the later file, which is not that string itself. *)
Lemma later_file_value_converted :
  window_disk "window.yaml" = inr (YMap window_yaml) ∧
  window_disk "later.yaml" = inr (YMap later_yaml) ∧
  window_yaml !! KStr "start" = Some (VStr "2024-01-01") ∧
  later_yaml !! KStr "start" = Some (VStr "2024-06-01") ∧
  (∅ : gmap string value) !! "start" = None ∧
  ∃ inst,
    load pandas WindowSettings window_disk (ManyPaths ["window.yaml"; "later.yaml"]) ∅
    = ([Opened "window.yaml"; Opened "later.yaml"; Warned], inr inst) ∧
    inst !! "start" = Some (VTime Timestamp "2024-06-01") ∧
    inst !! "start" ≠ Some (VStr "2024-06-01").
Proof.
  repeat (split; [reflexivity|]).
  exists (attributes WindowSettings
            (<["start" := VTime Timestamp "2024-06-01"]>
               (merged_from WindowSettings [window_yaml; later_yaml] ∅))).
  assert (H : attributes WindowSettings
                (<["start" := VTime Timestamp "2024-06-01"]>
                   (merged_from WindowSettings [window_yaml; later_yaml] ∅))
              !! "start" = Some (VTime Timestamp "2024-06-01")) by reflexivity.
  split; [reflexivity|]. split; [exact H|]. rewrite H. by intros [=].
Qed.

(** ** Further properties of the loader *)

Section LoaderFacts.

Variable constructor : time_type → value → exn + value.

(** *** Which files are opened *)

Lemma opened_app tr1 tr2 : opened (tr1 ++ tr2) = (opened tr1 ++ opened tr2)%list.
Proof. unfold opened. apply omap_app. Qed.

Lemma opened_file_events fs p settings d : opened (file_events fs p settings d) = [p].
Proof. unfold file_events, opened. simpl. by case_bool_decide. Qed.

Lemma read_file_opened fs disk p settings tr r :
  read_file fs disk p settings = (tr, r) → opened tr = [p].
Proof.
  destruct (disk p) as [e|[d|]] eqn:Hd.
  - unfold read_file. rewrite Hd. simpl. by intros [= <- _].
  - rewrite (read_file_mapping _ _ _ _ d Hd). intros [= <- _].
    apply opened_file_events.
  - unfold read_file. rewrite Hd. simpl. by intros [= <- _].
Qed.

Lemma read_files_opened fs disk paths settings tr r :
  read_files fs disk paths settings = (tr, r) →
  opened tr `prefix_of` paths ∧ (∀ settings', r = inr settings' → opened tr = paths).
Proof.
  revert settings tr r. induction paths as [|p ps IH]; intros settings tr r; simpl.
  - intros [= <- <-]. split; [done|]. done.
  - destruct (read_file fs disk p settings) as [tr1 [e|s1]] eqn:Hp; simpl.
    + intros [= <- <-]. rewrite (read_file_opened _ _ _ _ _ _ Hp).
      split; [by exists ps | done].
    + destruct (read_files fs disk ps s1) as [tr2 r2] eqn:Hps.
      intros [= <- <-]. rewrite opened_app, (read_file_opened _ _ _ _ _ _ Hp).
      destruct (IH _ _ _ Hps) as [Hpre Heq]. split.
      * by apply prefix_cons.
      * intros s' ->. simpl. f_equal. by eapply Heq.
Qed.

(** The trace of [load] on a dataclass is the trace of the loop over the
    files. *)
Lemma load_trace cls disk fp params tr r :
  is_dataclass cls = true →
  load constructor cls disk fp params = (tr, r) →
  ∃ r', read_files (fields cls) disk (paths_of fp) ∅ = (tr, r') ∧
        (∀ inst, r = inr inst → ∃ acc, r' = inr acc).
Proof.
  intros Hdc. unfold load, merge. rewrite Hdc. cbn [negb].
  destruct (read_files (fields cls) disk (paths_of fp) ∅) as [tr1 [e|acc]]; simpl.
  { intros [= <- <-]. eexists. split; [done|]. by intros inst [=]. }
  assert (∀ (x : exn + instance),
            (tr1, @inr exn instance acc) = (tr1, inr acc) ∧
            (∀ inst, x = inr inst → ∃ acc', @inr exn instance acc = inr acc'))
    as Hgoal by (intros x; split; [done|]; intros; by eexists).
  destruct (_convert_to_time constructor cls (non_null params ∪ acc)) as [e|conv];
    simpl.
  { intros [= <- <-]. rewrite !app_nil_r. eexists. apply Hgoal. }
  destruct (construct cls conv) as [[]|i]; simpl;
    intros [= <- <-]; rewrite !app_nil_r; eexists; apply Hgoal.
Qed.

(** X1 (files opened): whatever its outcome, [load] opens listed files
    only, from the first on and in the order given, each listed position
    once; and when it returns an instance it has opened exactly the listed
    files. *)
Theorem load_opens_listed cls disk fp params tr r :
  load constructor cls disk fp params = (tr, r) →
  opened tr `prefix_of` paths_of fp ∧
  (∀ inst, r = inr inst → opened tr = paths_of fp).
Proof.
  destruct (is_dataclass cls) eqn:Hdc.
  - intros H. destruct (load_trace _ _ _ _ _ _ Hdc H) as (r' & Hr & Hok).
    destruct (read_files_opened _ _ _ _ _ _ Hr) as [Hpre Heq].
    split; [done|]. intros inst ->. destruct (Hok inst eq_refl) as [acc ->].
    by eapply Heq.
  - unfold load. rewrite Hdc. simpl. intros [= <- <-].
    split; [apply prefix_nil | done].
Qed.

(** X2 (falsy file paths): with [None], the empty string or an empty list
    as [filepaths], [load] opens nothing and logs nothing, and its outcome
    is the one of the call without [filepaths]: an empty path string is
    skipped, not looked up. *)
Theorem load_without_files cls disk fp params :
  truthy fp = false →
  (load constructor cls disk fp params).1 = [] ∧
  load constructor cls disk fp params = load constructor cls disk NoPaths params.
Proof.
  intros Hfp.
  assert (Hp : paths_of fp = []) by (unfold paths_of; by rewrite Hfp).
  split.
  - unfold load, merge. rewrite Hp. destruct (is_dataclass cls); [|done]. simpl.
    destruct (_convert_to_time constructor cls (non_null params ∪ ∅)) as [e|conv];
      simpl; [done|].
    destruct (construct cls conv) as [[]|]; done.
  - unfold load, merge. by rewrite Hp.
Qed.

(** X3 (first unreadable file): when the files before [p] parse to
    mappings and [p] cannot be opened or parsed, or holds a document that
    is not a mapping (an empty file), [load] on a dataclass raises that very
    exception ([AttributeError] for the document that is not a mapping),
    whatever the overrides; it has opened the files up to [p] and none of
    the later ones. *)
Theorem load_stops_at_unreadable cls disk fp params before p after e :
  is_dataclass cls = true →
  paths_of fp = (before ++ p :: after)%list →
  all_mappings disk before →
  unreadable (disk p) = Some e →
  ∃ tr, load constructor cls disk fp params = (tr, inl e) ∧
        opened tr = (before ++ [p])%list.
Proof.
  intros Hdc Hpaths Hall He.
  destruct (read_files_total (fields cls) disk before ∅ Hall) as (tr1 & acc & H1).
  assert (Hp : read_file (fields cls) disk p acc = ([Opened p], inl e)).
  { unfold read_file. by destruct (disk p) as [e'|[d|]]; simplify_eq/=. }
  exists (tr1 ++ [Opened p])%list. split.
  - unfold load, merge. rewrite Hdc, Hpaths, read_files_app. cbn [negb].
    rewrite (bind_ok _ _ _ _ H1). simpl. by rewrite Hp.
  - rewrite opened_app. f_equal.
    by apply (proj2 (read_files_opened _ _ _ _ _ _ H1) acc).
Qed.

(** X4 (only the listed files are read): two file systems that hold the
    same thing at every listed path give the same events and the same
    outcome. *)
Theorem load_reads_listed_only cls disk disk' fp params :
  (∀ p, p ∈ paths_of fp → disk p = disk' p) →
  load constructor cls disk fp params = load constructor cls disk' fp params.
Proof.
  intros H. unfold load, merge.
  assert (Hrf : ∀ paths settings,
            (∀ p, p ∈ paths → disk p = disk' p) →
            read_files (fields cls) disk paths settings =
            read_files (fields cls) disk' paths settings).
  { induction paths as [|p ps IH]; intros settings Hps; simpl; [done|].
    assert (read_file (fields cls) disk p settings =
            read_file (fields cls) disk' p settings) as ->
      by (unfold read_file; rewrite (Hps p) by left; done).
    destruct (read_file (fields cls) disk' p settings) as [tr [e|s1]];
      simpl; [done|].
    rewrite IH; [done|]. intros q Hq. apply Hps. by right. }
  by rewrite (Hrf _ _ H).
Qed.

End LoaderFacts.

Section MergeFacts.

Variable constructor : time_type → value → exn + value.

(** *** The duplicate warning *)

Lemma warned_file_events fs p settings d :
  Warned ∈ file_events fs p settings d ↔
  ∃ f, f ∈ fs ∧ is_Some (d !! KStr f) ∧ is_Some (settings !! f).
Proof.
  unfold file_events. rewrite elem_of_cons. case_bool_decide as Hc; split.
  - intros _. apply set_choose_L in Hc as [f [Hs Hr]%elem_of_intersection].
    apply elem_of_dom in Hs. apply elem_of_dom in Hr as [v Hv].
    apply lookup_recognised_Some in Hv as [Hf Hv]. exists f. by rewrite Hv.
  - intros _. right. left.
  - intros [[=]|H]. by apply elem_of_nil in H.
  - intros (f & Hf & [v Hv] & Hs). exfalso.
    assert (f ∈ dom settings ∩ dom (recognised fs d)) as Hin.
    { apply elem_of_intersection. split; [by apply elem_of_dom|].
      apply elem_of_dom. exists v. by apply lookup_recognised_Some. }
    rewrite Hc in Hin. by apply elem_of_empty in Hin.
Qed.

Lemma lookup_merged_file fs d settings f :
  is_Some ((recognised fs d ∪ settings) !! f) ↔
  (f ∈ fs ∧ is_Some (d !! KStr f)) ∨ is_Some (settings !! f).
Proof.
  rewrite <- !elem_of_dom, dom_union, elem_of_union, !elem_of_dom.
  assert (is_Some (recognised fs d !! f) ↔ f ∈ fs ∧ is_Some (d !! KStr f)) as ->;
    [|done].
  unfold is_Some. setoid_rewrite lookup_recognised_Some. naive_solver.
Qed.

Lemma read_files_warned fs disk paths settings tr settings' :
  read_files fs disk paths settings = (tr, inr settings') →
  Warned ∈ tr ↔
  ∃ before p after d f,
    paths = (before ++ p :: after)%list ∧ disk p = inr (YMap d) ∧
    f ∈ fs ∧ is_Some (d !! KStr f) ∧
    (is_Some (settings !! f) ∨ some_file_has disk before f).
Proof.
  revert settings tr. induction paths as [|p ps IH]; intros settings tr H.
  - injection H as <- _. split; [by intros ?%elem_of_nil|].
    intros (before & q & after & _ & _ & Hp & _). by destruct before.
  - apply read_files_cons_inr in H as (d & tr' & Hd & H & ->).
    rewrite elem_of_app, warned_file_events, (IH _ _ H). split.
    + intros [(f & Hf & Hdf & Hs)|(before & q & after & d' & f & -> & Hq & Hf & Hdf & Hs)].
      * exists [], p, ps, d, f. repeat split; try done. by left.
      * exists (p :: before), q, after, d', f. repeat split; try done.
        destruct Hs as [[[_ Hpd]|Hs]%lookup_merged_file|(r & dr & Hr & Hdr & Hrf)].
        -- right. exists p, d. split; [left|done].
        -- by left.
        -- right. exists r, dr. split; [by right|done].
    + intros (before & q & after & d' & f & Hps & Hq & Hf & Hdf & Hs).
      destruct before as [|p0 before]; simpl in Hps; injection Hps as <- ->.
      * left. rewrite Hd in Hq. injection Hq as <-.
        destruct Hs as [Hs|(r & dr & Hr & _)]; [by exists f|].
        by apply elem_of_nil in Hr.
      * right. exists before, q, after, d', f. repeat split; try done.
        destruct Hs as [Hs|(r & dr & Hr & Hdr & Hrf)].
        -- left. apply lookup_merged_file. by right.
        -- apply elem_of_cons in Hr as [->|Hr].
           ++ left. apply lookup_merged_file. left.
              rewrite Hd in Hdr. by injection Hdr as <-.
           ++ right. by exists r, dr.
Qed.

(** X5 (when the duplicate warning is logged): once the files are merged,
    the warning is in the log exactly when some field of the schema is a
    key of two listed documents (the same path listed twice counts as
    two); keys outside the schema never cause it, and neither do the
    overrides. *)
Theorem warning_iff_shared_field cls disk fp params tr merged :
  merge cls disk fp params = (tr, inr merged) →
  Warned ∈ tr ↔
  ∃ before p after d f,
    paths_of fp = (before ++ p :: after)%list ∧ disk p = inr (YMap d) ∧
    f ∈ field_names cls ∧ is_Some (d !! KStr f) ∧
    some_file_has disk before f.
Proof.
  intros (acc & Hacc & _)%merge_inr.
  rewrite (read_files_warned _ _ _ _ _ _ Hacc). split.
  - intros (before & p & after & d & f & Hp & Hd & Hf%elem_of_fields & Hdf & [Hs|Hs]).
    + rewrite lookup_empty in Hs. by destruct Hs.
    + by exists before, p, after, d, f.
  - intros (before & p & after & d & f & Hp & Hd & Hf%elem_of_fields & Hdf & Hs).
    exists before, p, after, d, f. repeat split; try done. by right.
Qed.

(** *** Overrides passed as [None] *)

Lemma non_null_insert_null params k :
  non_null (<[k := VNone]> params) = non_null (delete k params).
Proof.
  apply map_eq. intros f. rewrite !lookup_non_null.
  destruct (decide (k = f)) as [->|Hne].
  - by rewrite lookup_insert_eq, lookup_delete_eq.
  - by rewrite lookup_insert_ne, lookup_delete_ne.
Qed.

(** X6 (an override passed as [None]): passing [None] for a keyword is
    the same as not passing the keyword, in events and in outcome, also for
    a keyword that is no field of the schema. *)
Theorem none_override_is_no_override cls disk fp params k :
  load constructor cls disk fp (<[k := VNone]> params) =
  load constructor cls disk fp (delete k params).
Proof. unfold load, merge. by rewrite non_null_insert_null. Qed.

(** *** Which file a value comes from *)

(** X7 (the last file that has a field wins): with any number of files
    and no override for the schema field [f], the instance holds the value
    [v] that the last listed file having [f] gives it, whatever the earlier
    files give: as it is, or as the time object built from it when the
    declared type of [f] is a time type and [v] is not null. *)
Theorem last_supplier_wins cls disk fp params f before p after d v tr inst :
  NoDup (field_names cls) →
  f ∈ field_names cls →
  paths_of fp = (before ++ p :: after)%list →
  disk p = inr (YMap d) → d !! KStr f = Some v →
  no_file_has disk after f →
  not_overridden params f →
  load constructor cls disk fp params = (tr, inr inst) →
  ∃ w, inst !! f = Some w ∧ stored_as constructor cls f v w.
Proof.
  intros Hnd Hf Hpaths Hd Hv Hafter Hov Hl.
  destruct (load_merge _ _ _ _ _ _ _ Hl) as [merged Hm].
  eapply load_lookup; try done.
  apply merge_inr in Hm as (acc & Hacc & ->).
  apply not_overridden_lookup in Hov. rewrite lookup_union_r by done.
  rewrite Hpaths in Hacc.
  eapply read_files_last_supplier; [exact Hacc|exact Hd| |exact Hv|done].
  by apply elem_of_fields.
Qed.

End MergeFacts.

Section ConstructionFacts.

Variable constructor : time_type → value → exn + value.

(** *** Defaults *)

Lemma attributes_default cls settings fd :
  NoDup (field_names cls) → fd ∈ hints cls →
  settings !! fname fd = None →
  attributes cls settings !! fname fd = fdefault fd.
Proof.
  unfold attributes, field_names. intros Hnd Hin Hs.
  induction (hints cls) as [|fd' l IH]; simpl in *.
  - by apply elem_of_nil in Hin.
  - apply NoDup_cons in Hnd as [Hfd' Hnd]. unfold set_attribute at 1.
    apply elem_of_cons in Hin as [<-|Hin].
    + rewrite Hs. destruct (fdefault fd) as [v|] eqn:Ed.
      * by rewrite lookup_insert_eq.
      * destruct (foldr (set_attribute settings) ∅ l !! fname fd) eqn:E; [|done].
        exfalso. apply Hfd'.
        apply (attributes_declared {| is_dataclass := true; frozen := true; hints := l |}
                 settings (fname fd)).
        unfold attributes. simpl. by rewrite E.
    + assert (fname fd' ≠ fname fd) as Hne.
      { intros Heq. apply Hfd'. rewrite Heq. apply list_elem_of_fmap. by exists fd. }
      destruct (settings !! fname fd'), (fdefault fd');
        rewrite ?lookup_insert_ne by done; by apply IH.
Qed.

(** X8 (defaults): a field declared with a default that no listed file
    has and no override supplies holds, in the instance [load] returns, the
    declared default as it stands: a default is not passed through the time
    constructor even when the field has a time type. *)
Theorem default_when_unsupplied cls disk fp params fd dflt tr inst :
  NoDup (field_names cls) →
  fd ∈ hints cls → fdefault fd = Some dflt →
  no_file_has disk (paths_of fp) (fname fd) →
  not_overridden params (fname fd) →
  load constructor cls disk fp params = (tr, inr inst) →
  inst !! fname fd = Some dflt.
Proof.
  intros Hnd Hin Hd Hno Hov
    (_ & merged & conv & Hm & Hc & _ & ->)%load_inr.
  rewrite <- Hd. apply attributes_default; try done.
  eapply convert_absent; [exact Hc|]. by eapply merge_unsupplied.
Qed.

(** X19 (attributes of the instance): the instance [load] returns has
    the declared fields of the schema as its attributes, all of them and
    nothing else, whatever the files and the overrides held. *)
Theorem instance_has_declared_fields cls disk fp params tr inst :
  NoDup (field_names cls) →
  load constructor cls disk fp params = (tr, inr inst) →
  ∀ f, is_Some (inst !! f) ↔ f ∈ field_names cls.
Proof.
  intros Hnd (_ & merged & conv & Hm & Hc & [_ Hok]%init_ok_spec & ->)%load_inr f.
  split; [apply attributes_declared|].
  intros [fd [-> Hin]]%list_elem_of_fmap.
  destruct (conv !! fname fd) as [v|] eqn:Ev.
  - exists v. apply attributes_keeps; [|done].
    apply list_elem_of_fmap. by exists fd.
  - rewrite (attributes_default _ _ _ Hnd Hin Ev).
    destruct (fdefault fd) as [dflt|] eqn:Ed; [done|].
    assert (fname fd ∈ dom conv) as [v Hv]%elem_of_dom
      by (apply Hok; by exists fd).
    congruence.
Qed.

(** *** Exceptions of the time constructors *)

Lemma convert_loop_inl l settings e :
  NoDup (l.*1) →
  (∀ g t, (g, t) ∈ l → is_Some (settings !! g)) →
  convert_loop constructor l settings = inl e →
  ∃ g t v, (g, t) ∈ l ∧ settings !! g = Some v ∧ is_none v = false ∧
           constructor t v = inl e.
Proof.
  revert settings. induction l as [|[g t] l IH]; intros settings; simpl; [done|].
  intros [Hg Hnd]%NoDup_cons Hkeys.
  destruct (Hkeys g t) as [v Hv]; [left|]. rewrite Hv.
  assert (Hrec : ∀ settings1,
            (∀ g', g' ≠ g → settings1 !! g' = settings !! g') →
            convert_loop constructor l settings1 = inl e →
            ∃ g0 t0 v0, (g0, t0) ∈ (g, t) :: l ∧ settings !! g0 = Some v0 ∧
                        is_none v0 = false ∧ constructor t0 v0 = inl e).
  { intros settings1 Hsame H1.
    destruct (IH settings1 Hnd) as (g0 & t0 & v0 & Hin & Hv0 & Hn0 & Hc0); [|done|].
    - intros g' t' Hin'. rewrite Hsame; [by eapply Hkeys; right|].
      intros ->. apply Hg, list_elem_of_fmap. by exists (g, t').
    - exists g0, t0, v0. split; [by right|]. split; [|done].
      rewrite <- Hsame; [done|].
      intros ->. apply Hg, list_elem_of_fmap. by exists (g, t0). }
  destruct (is_none v) eqn:Hn; [by apply Hrec|].
  destruct (constructor t v) as [e'|w] eqn:Hc.
  - intros [= ->]. exists g, t, v. split; [left|done].
  - apply Hrec. intros g' Hne. by rewrite lookup_insert_ne.
Qed.

(** X9 (a value a time constructor refuses): when the merged dictionary
    holds, for a field with a time type, a non-null value on which the
    constructor of that type raises, [load] returns no instance and raises
    an exception that a time constructor raised on a merged value, as it
    is: it is not turned into [MissingParamError], also when required
    fields are missing, and also when it is a [TypeError]. *)
Theorem constructor_error_propagates cls disk fp params tr merged f t v e :
  NoDup (field_names cls) →
  is_dataclass cls = true →
  merge cls disk fp params = (tr, inr merged) →
  time_type_of cls f = Some t →
  merged !! f = Some v → is_none v = false →
  constructor t v = inl e →
  ∃ e' g t' v',
    load constructor cls disk fp params = (tr, inl e') ∧
    time_type_of cls g = Some t' ∧ merged !! g = Some v' ∧
    is_none v' = false ∧ constructor t' v' = inl e'.
Proof.
  intros Hnd Hdc Hm Ht Hv Hn He.
  destruct (_convert_to_time constructor cls merged) as [e'|conv] eqn:Hc.
  - pose proof Hc as Hloop.
    apply convert_loop_inl in Hloop as (g & t' & v' & Hin & Hv' & Hn' & Hc').
    + exists e', g, t', v'. split.
      * unfold load. rewrite Hdc. cbn [negb].
        rewrite (bind_ok _ _ _ _ Hm), Hc. simpl. by rewrite app_nil_r.
      * apply elem_of_time_field_types in Hin as [Hdecl _].
        by apply time_type_of_Some in Hdecl.
    + by apply time_field_types_NoDup.
    + intros g t' [_ Hdom]%elem_of_time_field_types. by apply elem_of_dom.
  - exfalso.
    destruct (convert_lookup _ _ _ _ f v Hnd Hc Hv) as (w & Hw & _).
    rewrite (coerce_time _ _ _ _ _ Ht Hn) in Hw. congruence.
Qed.

(** *** Schemas without time fields *)

Lemma time_field_types_nil cls settings :
  has_time_field cls = false → time_field_types cls settings = [].
Proof.
  unfold has_time_field, time_field_types.
  induction (hints cls) as [|fd l IH]; simpl; [done|].
  intros [Hfd Hl]%orb_false_iff. destruct (ftype fd); try done; by apply IH.
Qed.

Lemma convert_plain_schema cls settings :
  has_time_field cls = false →
  _convert_to_time constructor cls settings = inr settings.
Proof.
  intros H. unfold _convert_to_time. by rewrite time_field_types_nil.
Qed.

(** X10 (no time field, no conversion): on a schema that declares no
    field with a time type, as [PreparationSettings], [_convert_to_time]
    returns the dictionary it was given and [load] hands the merged
    dictionary to the class as it is, whatever the constructors would
    do. *)
Theorem convert_without_time_fields cls disk fp params tr merged :
  has_time_field cls = false →
  is_dataclass cls = true →
  merge cls disk fp params = (tr, inr merged) →
  _convert_to_time constructor cls merged = inr merged ∧
  load constructor cls disk fp params =
    (tr, match construct cls merged with
         | inr inst => inr inst
         | inl _ => inl MissingParamError
         end).
Proof.
  intros Hnt Hdc Hm. split; [by apply convert_plain_schema|].
  rewrite (load_construct _ _ _ _ _ _ _ _ Hdc Hm (convert_plain_schema _ _ Hnt)).
  unfold construct. by destruct (init_ok cls merged).
Qed.

(** *** When [load] returns an instance *)

Lemma read_files_keeps fs disk paths settings tr settings' f :
  read_files fs disk paths settings = (tr, inr settings') →
  is_Some (settings !! f) → is_Some (settings' !! f).
Proof.
  revert settings tr. induction paths as [|p ps IH]; intros settings tr H Hs.
  - by injection H as _ <-.
  - apply read_files_cons_inr in H as (d & tr' & Hd & H & _).
    eapply IH; [exact H|]. apply lookup_merged_file. by right.
Qed.

Lemma read_files_has fs disk paths settings tr settings' f :
  read_files fs disk paths settings = (tr, inr settings') →
  f ∈ fs → some_file_has disk paths f → is_Some (settings' !! f).
Proof.
  revert settings tr. induction paths as [|p ps IH]; intros settings tr H Hf.
  - intros (q & d & Hq & _). by apply elem_of_nil in Hq.
  - apply read_files_cons_inr in H as (d & tr' & Hd & H & _).
    intros (q & dq & [->|Hq]%elem_of_cons & Hdq & Hfq).
    + rewrite Hd in Hdq. injection Hdq as <-.
      eapply read_files_keeps; [exact H|]. apply lookup_merged_file. by left.
    + eapply IH; [exact H|done|]. by exists q, dq.
Qed.


(** *** The call of the data preparation script *)

Lemma script_params_lookup in_path out_train out_test k :
  script_params in_path out_train out_test !! k =
    if decide (k = "in_path") then Some (VPath in_path)
    else if decide (k = "out_train") then Some (VPath out_train)
    else if decide (k = "out_test") then Some (VPath out_test)
    else None.
Proof.
  unfold script_params. repeat case_decide; subst;
    rewrite ?lookup_insert_eq, ?lookup_insert_ne, ?lookup_empty by done; done.
Qed.

Lemma script_params_non_null in_path out_train out_test :
  non_null (script_params in_path out_train out_test) =
  script_params in_path out_train out_test.
Proof.
  apply map_eq. intros k. rewrite lookup_non_null, script_params_lookup.
  by repeat case_decide.
Qed.

Lemma script_settings_facts disk config_path in_path out_train out_test :
  ((∃ tr inst, script_settings constructor disk config_path in_path out_train out_test
               = (tr, inr inst)) ↔
   ∃ d, disk config_path = inr (YMap d) ∧
        is_Some (d !! KStr "target") ∧ is_Some (d !! KStr "test_size")) ∧
  ∀ tr inst d,
    script_settings constructor disk config_path in_path out_train out_test
    = (tr, inr inst) →
    disk config_path = inr (YMap d) →
    tr = [Opened config_path] ∧
    inst !! "in_path" = Some (VPath in_path) ∧
    inst !! "out_train" = Some (VPath out_train) ∧
    inst !! "out_test" = Some (VPath out_test) ∧
    inst !! "target" = d !! KStr "target" ∧
    inst !! "test_size" = d !! KStr "test_size".
Proof.
  unfold script_settings.
  assert (Hmerge : ∀ d, disk config_path = inr (YMap d) →
            merge PreparationSettings disk (OnePath config_path)
              (script_params in_path out_train out_test)
            = ([Opened config_path],
               inr (script_params in_path out_train out_test ∪
                    (recognised (fields PreparationSettings) d ∪ ∅)))).
  { intros d Hd. unfold merge. change (paths_of (OnePath config_path)) with [config_path].
    simpl. rewrite (read_file_mapping _ _ _ _ d Hd). unfold file_events.
    rewrite dom_empty_L, bool_decide_eq_false_2 by set_solver.
    simpl. by rewrite script_params_non_null. }
  assert (Hload : ∀ d, disk config_path = inr (YMap d) →
            load constructor PreparationSettings disk (OnePath config_path)
              (script_params in_path out_train out_test)
            = ([Opened config_path],
               let merged := script_params in_path out_train out_test ∪
                    (recognised (fields PreparationSettings) d ∪ ∅) in
               if init_ok PreparationSettings merged
               then inr (attributes PreparationSettings merged)
               else inl MissingParamError)).
  { intros d Hd.
    by rewrite (load_construct _ PreparationSettings _ _ _ _ _ _ eq_refl (Hmerge d Hd)
                  (convert_plain_schema PreparationSettings _ eq_refl)). }
  assert (Hlook : ∀ d (k : string), k ∈ field_names PreparationSettings →
            (script_params in_path out_train out_test ∪
               (recognised (fields PreparationSettings) d ∪ ∅)) !! k
            = match script_params in_path out_train out_test !! k with
              | Some v => Some v
              | None => d !! KStr k
              end).
  { intros d k Hk.
    destruct (script_params in_path out_train out_test !! k) as [v|] eqn:E.
    - by apply lookup_union_Some_l.
    - rewrite lookup_union_r by done.
      rewrite map_union_empty, lookup_recognised.
      by rewrite bool_decide_eq_true_2 by (by apply elem_of_fields). }
  assert (Hok : ∀ d,
            init_ok PreparationSettings
              (script_params in_path out_train out_test ∪
                 (recognised (fields PreparationSettings) d ∪ ∅)) = true ↔
            is_Some (d !! KStr "target") ∧ is_Some (d !! KStr "test_size")).
  { intros d. rewrite init_ok_spec. split.
    - intros [_ Hreq]. split.
      + assert (required PreparationSettings "target") as Hr
          by (eexists {| fname := "target" |}; split; [left|done]).
        apply Hreq, elem_of_dom in Hr.
        rewrite Hlook, script_params_lookup in Hr by compute_done.
        by repeat case_decide.
      + assert (required PreparationSettings "test_size") as Hr
          by (eexists {| fname := "test_size" |}; split; [right; left|done]).
        apply Hreq, elem_of_dom in Hr.
        rewrite Hlook, script_params_lookup in Hr by compute_done.
        by repeat case_decide.
    - intros [Ht Hs]. split.
      + rewrite !dom_union_L, dom_empty_L. intros k.
        rewrite !elem_of_union, elem_of_dom. intros [Hk|[Hk|Hk]].
        * apply elem_of_fields. destruct Hk as [v Hk].
          rewrite script_params_lookup in Hk.
          repeat case_decide; subst; try done; compute_done.
        * apply elem_of_dom in Hk as [v Hk].
          by apply lookup_recognised_Some in Hk as [? _].
        * by apply elem_of_empty in Hk.
      + intros f (fd & Hin & <- & _). apply elem_of_dom. simpl in Hin.
        repeat (apply elem_of_cons in Hin as [->|Hin]);
          try (rewrite Hlook, script_params_lookup by compute_done;
               by repeat case_decide).
        by apply elem_of_nil in Hin. }
  split.
  - split.
    + intros (tr & inst & H).
      pose proof H as (_ & merged & _ & Hm & _)%load_inr.
      apply merge_inr in Hm as (acc & Hacc & _).
      change (paths_of (OnePath config_path)) with [config_path] in Hacc.
      apply read_files_cons_inr in Hacc as (d & _ & Hd & _).
      exists d. split; [done|]. apply Hok.
      rewrite (Hload d Hd) in H. cbv zeta in H.
      by destruct (init_ok PreparationSettings _).
    + intros (d & Hd & Ht & Hs). rewrite (Hload d Hd). cbv zeta.
      rewrite (proj2 (Hok d) (conj Ht Hs)). by eexists _, _.
  - intros tr inst d H Hd. rewrite (Hload d Hd) in H. cbv zeta in H.
    destruct (init_ok PreparationSettings _) eqn:E; [|done].
    injection H as <- <-. split; [done|].
    apply Hok in E as [[vt Ht] [vs Hs]]. rewrite Ht, Hs.
    repeat split;
      (apply attributes_keeps; [compute_done|];
       rewrite Hlook by compute_done; rewrite script_params_lookup;
       repeat case_decide; done).
Qed.

(** X12 (the settings of the data preparation script): the call of [load]
    in [prepare_data] returns an instance exactly when the configuration
    file parses to a mapping that has the keys [target] and [test_size];
    the instance then holds for [in_path], [out_train] and [out_test] the
    paths of the command line, whatever the file says about them, and for
    [target] and [test_size] what the file says. *)
Theorem script_settings_spec disk config_path in_path out_train out_test :
  ((∃ tr inst, script_settings constructor disk config_path in_path out_train out_test
               = (tr, inr inst)) ↔
   ∃ d, disk config_path = inr (YMap d) ∧
        is_Some (d !! KStr "target") ∧ is_Some (d !! KStr "test_size")) ∧
  ∀ tr inst d,
    script_settings constructor disk config_path in_path out_train out_test
    = (tr, inr inst) →
    disk config_path = inr (YMap d) →
    tr = [Opened config_path] ∧
    inst !! "in_path" = Some (VPath in_path) ∧
    inst !! "out_train" = Some (VPath out_train) ∧
    inst !! "out_test" = Some (VPath out_test) ∧
    inst !! "target" = d !! KStr "target" ∧
    inst !! "test_size" = d !! KStr "test_size".
Proof. apply script_settings_facts. Qed.

End ConstructionFacts.

(** ** The contract of the loader on calls that get to the construction *)

Section Contract.

Variable constructor : time_type → value → exn + value.

(** Once the files and the overrides are merged, the outcome of [load] is
    the one of the conversion and of the construction. *)
Lemma load_after_merge cls disk fp params tr merged :
  is_dataclass cls = true →
  merge cls disk fp params = (tr, inr merged) →
  load constructor cls disk fp params =
    (tr, match _convert_to_time constructor cls merged with
         | inl e => inl e
         | inr converted =>
             if init_ok cls converted then inr (attributes cls converted)
             else inl MissingParamError
         end).
Proof.
  intros Hdc Hm.
  destruct (_convert_to_time constructor cls merged) as [e|conv] eqn:Hc.
  - unfold load. rewrite Hdc. cbn [negb].
    rewrite (bind_ok _ _ _ _ Hm), Hc. simpl. by rewrite app_nil_r.
  - by apply (load_construct _ _ _ _ _ _ merged).
Qed.

Lemma merge_total cls disk fp params :
  all_mappings disk (paths_of fp) →
  ∃ tr acc, read_files (fields cls) disk (paths_of fp) ∅ = (tr, inr acc) ∧
            merge cls disk fp params = (tr, inr (non_null params ∪ acc)).
Proof.
  intros Hall.
  destruct (read_files_total (fields cls) disk (paths_of fp) ∅ Hall) as (tr & acc & H).
  exists tr, acc. split; [done|]. apply merge_inr. by exists acc.
Qed.

(** *** Required fields *)

(** C3 (missing required field), as the code has it: when no supplied
    config file has the required field [f] and the overrides do not supply
    it either, [load] on a dataclass returns no instance; and it raises
    [MissingParamError] whenever every supplied file is read and parsed
    into a mapping and the time conversion raises nothing. *)
Theorem missing_required_field cls disk fp params f :
  is_dataclass cls = true →
  required cls f →
  no_file_has disk (paths_of fp) f →
  not_overridden params f →
  (∀ tr inst, load constructor cls disk fp params ≠ (tr, inr inst)) ∧
  (all_mappings disk (paths_of fp) →
   ∃ tr merged,
     merge cls disk fp params = (tr, inr merged) ∧
     ∀ converted,
       _convert_to_time constructor cls merged = inr converted →
       load constructor cls disk fp params = (tr, inl MissingParamError)).
Proof.
  intros Hdc Hreq Hno Hov. split; [by eapply load_missing|].
  intros Hall. destruct (merge_total cls disk fp params Hall) as (tr & acc & _ & Hm).
  exists tr, (non_null params ∪ acc). split; [done|]. intros conv Hc.
  rewrite (load_after_merge _ _ _ _ _ _ Hdc Hm), Hc.
  destruct (init_ok cls conv) eqn:Hok; [|done].
  exfalso. apply init_ok_spec in Hok as [_ Hok].
  apply Hok, elem_of_dom in Hreq as [v Hv].
  by rewrite (convert_absent _ _ _ _ f Hc
                (merge_unsupplied _ _ _ _ _ _ f Hm Hno Hov)) in Hv.
Qed.

(** *** Unknown overrides *)

(** C9 (unknown override keys are not ignored), as the code has it: an
    override with a non-null value whose name [k] the schema does not
    declare is dropped from every file mapping by [recognised], and [load]
    on a dataclass returns no instance; when every supplied file is read
    and parsed into a mapping, the key is in the merged dictionary as it
    was passed, and when the time conversion raises nothing either, the
    construction raises [TypeError] and [load] raises
    [MissingParamError]. *)
Theorem unknown_override_key cls disk fp params k v :
  is_dataclass cls = true →
  k ∉ field_names cls →
  params !! k = Some v → is_none v = false →
  (∀ d, recognised (fields cls) d !! k = None) ∧
  (∀ tr inst, load constructor cls disk fp params ≠ (tr, inr inst)) ∧
  (all_mappings disk (paths_of fp) →
   ∃ tr merged,
     merge cls disk fp params = (tr, inr merged) ∧
     merged !! k = Some v ∧
     ∀ converted,
       _convert_to_time constructor cls merged = inr converted →
       construct cls converted = inl TypeError ∧
       load constructor cls disk fp params = (tr, inl MissingParamError)).
Proof.
  intros Hdc Hk Hv Hn.
  assert (Hbad : ∀ tr merged converted,
            merge cls disk fp params = (tr, inr merged) →
            _convert_to_time constructor cls merged = inr converted →
            init_ok cls converted = false).
  { intros tr merged conv Hm Hc.
    destruct (init_ok cls conv) eqn:Hok; [|done].
    apply init_ok_spec in Hok as [Hsub _]. exfalso. apply Hk.
    apply elem_of_fields, Hsub. rewrite (convert_dom _ _ _ _ Hc).
    eapply (elem_of_dom_2 (D:=gset string)), merge_overridden; done. }
  split; [|split].
  - intros d. rewrite lookup_recognised, bool_decide_eq_false_2; [done|].
    by rewrite elem_of_fields.
  - intros tr inst (_ & merged & conv & Hm & Hc & Hok & _)%load_inr.
    by rewrite (Hbad _ _ _ Hm Hc) in Hok.
  - intros Hall.
    destruct (merge_total cls disk fp params Hall) as (tr & acc & _ & Hm).
    exists tr, (non_null params ∪ acc). split; [done|].
    split; [by eapply merge_overridden|].
    intros conv Hc. pose proof (Hbad _ _ _ Hm Hc) as Hok. split.
    + by apply construct_inl.
    + by rewrite (load_after_merge _ _ _ _ _ _ Hdc Hm), Hc, Hok.
Qed.

(** *** Duplicate keys *)

(** C7 (duplicate-key warning), as the code has it: when a listed file
    [p] has a schema field [f] that a file listed before it has too, and
    every listed file parses to a mapping, the iteration of [load] over [p]
    opens it and logs one warning, for the file and not for each of its
    colliding keys, and the value of [p] replaces the one the accumulator
    held for [f]; the collision raises nothing: the merge goes on with the
    later files and [load] ends as the conversion and the construction of
    the merged dictionary do. *)
Theorem duplicate_key_warning cls disk fp params before p after d f new :
  is_dataclass cls = true →
  paths_of fp = (before ++ p :: after)%list →
  all_mappings disk (paths_of fp) →
  disk p = inr (YMap d) →
  f ∈ field_names cls → d !! KStr f = Some new →
  some_file_has disk before f →
  ∃ tr1 acc tr2 acc',
    read_files (fields cls) disk before ∅ = (tr1, inr acc) ∧
    is_Some (acc !! f) ∧
    read_file (fields cls) disk p acc =
      ([Opened p; Warned], inr (recognised (fields cls) d ∪ acc)) ∧
    (recognised (fields cls) d ∪ acc) !! f = Some new ∧
    read_files (fields cls) disk after (recognised (fields cls) d ∪ acc) = (tr2, inr acc') ∧
    merge cls disk fp params =
      ((tr1 ++ Opened p :: Warned :: tr2)%list, inr (non_null params ∪ acc')) ∧
    load constructor cls disk fp params =
      ((tr1 ++ Opened p :: Warned :: tr2)%list,
       match _convert_to_time constructor cls (non_null params ∪ acc') with
       | inl e => inl e
       | inr converted =>
           if init_ok cls converted then inr (attributes cls converted)
           else inl MissingParamError
       end).
Proof.
  intros Hdc Hpaths Hall Hd Hf Hnew Hbefore. rewrite Hpaths in Hall.
  destruct (read_files_total (fields cls) disk before ∅) as (tr1 & acc & H1).
  { intros q Hq. apply Hall, elem_of_app. by left. }
  assert (Hacc : is_Some (acc !! f))
    by (eapply read_files_has; [exact H1|by apply elem_of_fields|done]).
  assert (Hr : recognised (fields cls) d !! f = Some new)
    by (apply lookup_recognised_Some; split; [by apply elem_of_fields|done]).
  assert (Hp : read_file (fields cls) disk p acc =
               ([Opened p; Warned], inr (recognised (fields cls) d ∪ acc))).
  { rewrite (read_file_mapping _ _ _ _ d Hd). unfold file_events.
    rewrite bool_decide_eq_true_2; [done|].
    apply (elem_of_dom_2 (D:=gset string)) in Hr.
    apply (elem_of_dom (D:=gset string)) in Hacc. set_solver. }
  destruct (read_files_total (fields cls) disk after
              (recognised (fields cls) d ∪ acc)) as (tr2 & acc' & H2).
  { intros q Hq. apply Hall, elem_of_app. right. by right. }
  assert (Hm : merge cls disk fp params =
               ((tr1 ++ Opened p :: Warned :: tr2)%list, inr (non_null params ∪ acc'))).
  { apply merge_inr. exists acc'. split; [|done].
    rewrite Hpaths, read_files_app, (bind_ok _ _ _ _ H1). simpl.
    by rewrite Hp; simpl; rewrite H2. }
  exists tr1, acc, tr2, acc'. repeat split; try done.
  - by apply lookup_union_Some_l.
  - by apply load_after_merge.
Qed.

(** *** Nulls *)


(** *** The instance *)


(** *** The end of the script *)

(** X20 (how the script ends): the command never ends through
    [sys.exit(1)]: whenever the settings cannot be loaded, which is the case
    when the configuration file is not a mapping with the keys [target] and
    [test_size], and whenever the work on the loaded settings raises, the
    handler itself raises [TypeError] and that is how the command ends; the
    work is run only on loaded settings, and the command finishes exactly
    when the settings load and the work raises nothing. *)
Theorem script_never_exits disk config_path in_path out_train out_test work :
  (∀ code, data_prep constructor disk config_path in_path out_train out_test work
           ≠ Exited code) ∧
  ((¬ ∃ d, disk config_path = inr (YMap d) ∧
           is_Some (d !! KStr "target") ∧ is_Some (d !! KStr "test_size")) →
   data_prep constructor disk config_path in_path out_train out_test work
   = Uncaught TypeError) ∧
  (∀ tr exc,
     script_settings constructor disk config_path in_path out_train out_test
     = (tr, inl exc) →
     data_prep constructor disk config_path in_path out_train out_test work
     = Uncaught TypeError) ∧
  (∀ tr settings exc,
     script_settings constructor disk config_path in_path out_train out_test
     = (tr, inr settings) →
     work settings = inl exc →
     data_prep constructor disk config_path in_path out_train out_test work
     = Uncaught TypeError) ∧
  (data_prep constructor disk config_path in_path out_train out_test work = Finished ↔
   ∃ tr settings,
     script_settings constructor disk config_path in_path out_train out_test
     = (tr, inr settings) ∧ work settings = inr tt).
Proof.
  unfold data_prep.
  destruct (script_settings constructor disk config_path in_path out_train out_test)
    as [tr [exc|settings]] eqn:E; simpl.
  - split; [done|]. split; [done|]. split; [done|]. split; [done|]. split; [done|].
    by intros (tr' & settings & [=] & _).
  - split; [|split; [|split; [|split]]].
    + intros code. by destruct (work settings).
    + intros Hno. exfalso. apply Hno.
      apply (proj1 (script_settings_facts constructor disk config_path in_path
                      out_train out_test)).
      by exists tr, settings.
    + by intros tr' exc [=].
    + intros tr' settings' exc [= <- <-] Hw. by rewrite Hw.
    + destruct (work settings) as [exc|[]] eqn:Ew; split; try done.
      * intros (tr' & settings' & [= <- <-] & Hw). congruence.
      * intros _. by exists tr, settings.
Qed.

End Contract.

(** ** Properties of the stock gains endpoint *)

Section StockApi.

Variable L : library.

Lemma parse_dates_inr starting_date end_date a b :
  strptime L starting_date = inr a → strptime L end_date = inr b →
  parse_dates L starting_date end_date = inr (a, b).
Proof. unfold parse_dates. by intros -> ->. Qed.

Lemma rows_at_within (df : list (row L)) name a b d :
  (a ≤ d)%Z → (d ≤ b)%Z →
  filter (λ r, date r = d) (rows_within df name a b) = rows_at df name d.
Proof.
  intros Ha Hb. unfold rows_within, rows_at.
  induction df as [|r df IH]; [done|].
  rewrite !filter_cons. repeat case_decide; rewrite ?filter_cons;
    repeat case_decide; try (by f_equal); naive_solver lia.
Qed.

(** The body of [calculate_gains] once the dates are parsed and ordered
    and the data loaded. *)
Lemma gains_body_valid df name starting_date end_date investment a b :
  strptime L starting_date = inr a → strptime L end_date = inr b →
  (a < b)%Z →
  gains_body L (inr df) name starting_date end_date investment =
    if bool_decide (rows_within df name a b = [])
    then inl (HTTPException 404 "No data found for the specified company and date range.")
    else if bool_decide (rows_at df name a = []) || bool_decide (rows_at df name b = [])
    then inl (HTTPException 404 "No data found for the specified dates.")
    else
      try! start_price := item (open <$> rows_at df name a) in
      try! end_price := item (close <$> rows_at df name b) in
      match end_price, start_price with
      | Some e, Some s =>
          if is_zero L s then inl (OtherException "ZeroDivisionError")
          else
            inr {| content := page L name starting_date b investment s e
                                (fmul L (fdiv L e s) investment)
                                (fmul L (fdiv L (fsub L e s) s) (hundred L))
                                (fadd L investment (fmul L (fdiv L e s) investment));
                   status_code := 200 |}
      | _, _ => inl (OtherException "TypeError")
      end.
Proof.
  intros Hs He Hlt. unfold gains_body.
  rewrite (parse_dates_inr _ _ _ _ Hs He). simpl.
  destruct (Z.geb_spec a b) as [?|_]; [lia|].
  fold (rows_within df name a b).
  by rewrite !rows_at_within by lia.
Qed.

(** X13 (invalid date): when the start date does not parse, or it does
    and the end date does not, [calculate_gains] raises the
    [HTTPException] of status 400 whose detail ends with the message of
    [strptime], whatever the data, the company and the investment are:
    nothing is looked up. *)
Theorem invalid_date_rejected data name starting_date end_date investment ve :
  strptime L starting_date = inl ve ∨
  (∃ a, strptime L starting_date = inr a ∧ strptime L end_date = inl ve) →
  calculate_gains L data name starting_date end_date investment =
    inl (HTTPException 400 ("Invalid date format. Use YYYY-MM-DD. Error: " ++ ve)).
Proof.
  unfold calculate_gains, gains_body, parse_dates.
  by intros [->|(a & -> & ->)].
Qed.

(** X14 (dates out of order): when both dates parse and the start date is
    not before the end date (the same day included), [calculate_gains]
    raises the [HTTPException] of status 400 "Start date must be before end
    date.", whatever the data, the company and the investment are. *)
Theorem unordered_dates_rejected data name starting_date end_date investment a b :
  strptime L starting_date = inr a → strptime L end_date = inr b →
  (b ≤ a)%Z →
  calculate_gains L data name starting_date end_date investment =
    inl (HTTPException 400 "Start date must be before end date.").
Proof.
  intros Hs He Hle. unfold calculate_gains, gains_body.
  rewrite (parse_dates_inr _ _ _ _ Hs He). simpl.
  destruct (Z.geb_spec a b) as [_|?]; [done|lia].
Qed.


(** X16 (nothing found): with two parsed dates in order and the data
    loaded, [calculate_gains] raises the [HTTPException] of status 404 "No
    data found for the specified company and date range." when the company
    has no row between the two dates, and the one of status 404 "No data
    found for the specified dates." when it has some but none at the start
    date or none at the end date. *)
Theorem not_found df name starting_date end_date investment a b :
  strptime L starting_date = inr a → strptime L end_date = inr b →
  (a < b)%Z →
  (rows_within df name a b = [] →
   calculate_gains L (inr df) name starting_date end_date investment =
     inl (HTTPException 404 "No data found for the specified company and date range.")) ∧
  (rows_within df name a b ≠ [] →
   rows_at df name a = [] ∨ rows_at df name b = [] →
   calculate_gains L (inr df) name starting_date end_date investment =
     inl (HTTPException 404 "No data found for the specified dates.")).
Proof.
  intros Hs He Hlt. unfold calculate_gains.
  rewrite (gains_body_valid _ _ _ _ _ _ _ Hs He Hlt). split.
  - intros Hw. rewrite bool_decide_eq_true_2 by done. reflexivity.
  - intros Hne Hor. rewrite bool_decide_eq_false_2 by done.
    destruct Hor as [Hr|Hr]; rewrite Hr; simpl; [reflexivity|].
    rewrite orb_true_r. reflexivity.
Qed.

(** X17 (when the page is returned): with two parsed dates in order and
    the data loaded, [calculate_gains] returns a response exactly when the
    company has one row and no more at the start date and one row and no
    more at the end date, the opening price of the first and the closing
    price of the second are not null, and the opening price is not zero;
    the response has status 200 and its page shows the gains
    [close / open * investment]. *)
Theorem gains_returned_iff df name starting_date end_date investment a b :
  strptime L starting_date = inr a → strptime L end_date = inr b →
  (a < b)%Z →
  ∀ response,
    calculate_gains L (inr df) name starting_date end_date investment = inr response ↔
    ∃ first last s e,
      rows_at df name a = [first] ∧ rows_at df name b = [last] ∧
      open first = Some s ∧ close last = Some e ∧ is_zero L s = false ∧
      response =
        {| content := page L name starting_date b investment s e
                        (fmul L (fdiv L e s) investment)
                        (fmul L (fdiv L (fsub L e s) s) (hundred L))
                        (fadd L investment (fmul L (fdiv L e s) investment));
           status_code := 200 |}.
Proof.
  intros Hs He Hlt response. unfold calculate_gains.
  rewrite (gains_body_valid _ _ _ _ _ _ _ Hs He Hlt).
  assert (Hin : ∀ d, (a ≤ d)%Z → (d ≤ b)%Z →
            rows_within df name a b = [] → rows_at df name d = []).
  { intros d Ha Hb Hw. rewrite <- (rows_at_within df name a b d Ha Hb).
    by rewrite Hw. }
  split.
  - case_bool_decide as Hw; [done|].
    destruct (rows_at df name a) as [|first [|]] eqn:Hfirst;
      destruct (rows_at df name b) as [|last [|]] eqn:Hlast;
      simpl; try done.
    destruct (close last) as [e|] eqn:Hc; [|done].
    destruct (open first) as [s|] eqn:Ho; [|done].
    destruct (is_zero L s) eqn:Hz; [done|].
    intros [= <-]. by exists first, last, s, e.
  - intros (first & last & s & e & Hfirst & Hlast & Ho & Hc & Hz & ->).
    rewrite bool_decide_eq_false_2.
    + rewrite Hfirst, Hlast. simpl. by rewrite Ho, Hc, Hz.
    + intros Hw. apply (Hin a) in Hw; [|lia..]. by rewrite Hfirst in Hw.
Qed.

(** X18 (the investment is not checked): the status of the answer does
    not depend on the investment; no amount, zero and negative ones
    included, is refused by [calculate_gains]. *)
Theorem status_ignores_investment data name starting_date end_date investment investment' :
  status (calculate_gains L data name starting_date end_date investment) =
  status (calculate_gains L data name starting_date end_date investment').
Proof.
  unfold calculate_gains, gains_body.
  destruct (parse_dates L starting_date end_date) as [[]|[a b]]; simpl; try done.
  destruct (a >=? b)%Z; [done|].
  destruct data as [[]|df]; simpl; try done.
  case_bool_decide; [done|].
  destruct (_ || _); [done|].
  destruct (item _) as [[]|[s|]]; simpl; try done;
    destruct (item _) as [[]|[e|]]; simpl; try done.
  by destruct (is_zero L s).
Qed.

End StockApi.

(** ** Further runs on the sample inputs *)

Lemma load_opens_listed_witness :
  opened [Opened "config.yaml"; Opened "second.yaml"; Warned]
  = paths_of (ManyPaths ["config.yaml"; "second.yaml"]).
Proof.
  apply (proj2 (load_opens_listed pandas PreparationSettings (sample_disk false)
                  (ManyPaths ["config.yaml"; "second.yaml"]) cli_params
                  [Opened "config.yaml"; Opened "second.yaml"; Warned]
                  (inr (attributes PreparationSettings
                          (merged_from PreparationSettings [config_yaml; second_yaml]
                             cli_params)))
                  eq_refl) _ eq_refl).
Defined.

Lemma load_without_files_witness :
  load pandas PreparationSettings (sample_disk false) (OneStr "") cli_params
  = load pandas PreparationSettings (sample_disk false) NoPaths cli_params.
Proof.
  apply (proj2 (load_without_files pandas PreparationSettings (sample_disk false)
                  (OneStr "") cli_params eq_refl)).
Defined.

Lemma load_stops_at_unreadable_witness :
  ∃ tr,
    load pandas PreparationSettings (sample_disk false)
      (ManyPaths ["config.yaml"; "empty.yaml"; "second.yaml"]) cli_params
    = (tr, inl AttributeError) ∧
    opened tr = ["config.yaml"; "empty.yaml"].
Proof.
  apply (load_stops_at_unreadable pandas PreparationSettings (sample_disk false)
           (ManyPaths ["config.yaml"; "empty.yaml"; "second.yaml"]) cli_params
           ["config.yaml"] "empty.yaml" ["second.yaml"] AttributeError).
  - reflexivity.
  - reflexivity.
  - intros p ->%list_elem_of_singleton. by eexists.
  - reflexivity.
Defined.

Lemma load_reads_listed_only_witness :
  load pandas PreparationSettings (sample_disk true) (OneStr "second.yaml") cli_params
  = load pandas PreparationSettings (sample_disk false) (OneStr "second.yaml") cli_params.
Proof.
  apply load_reads_listed_only. by intros p ->%only_path_in.
Defined.

Lemma warning_iff_shared_field_witness :
  Warned ∈ [Opened "config.yaml"; Opened "second.yaml"; Warned] ↔
  ∃ before p after d f,
    paths_of (ManyPaths ["config.yaml"; "second.yaml"]) = (before ++ p :: after)%list ∧
    sample_disk false p = inr (YMap d) ∧
    f ∈ field_names PreparationSettings ∧ is_Some (d !! KStr f) ∧
    some_file_has (sample_disk false) before f.
Proof.
  apply (warning_iff_shared_field PreparationSettings (sample_disk false)
           (ManyPaths ["config.yaml"; "second.yaml"]) cli_params
           [Opened "config.yaml"; Opened "second.yaml"; Warned]
           (merged_from PreparationSettings [config_yaml; second_yaml] cli_params)).
  reflexivity.
Defined.

Lemma last_supplier_wins_witness :
  ∃ inst,
    load pandas PreparationSettings (sample_disk false)
      (ManyPaths ["second.yaml"; "config.yaml"; "second.yaml"]) cli_params
    = ([Opened "second.yaml"; Opened "config.yaml"; Warned; Opened "second.yaml"; Warned],
       inr inst) ∧
    inst !! "target" = Some (VStr "quality").
Proof.
  exists (attributes PreparationSettings
            (merged_from PreparationSettings [second_yaml; config_yaml; second_yaml]
               cli_params)).
  assert (E : load pandas PreparationSettings (sample_disk false)
                (ManyPaths ["second.yaml"; "config.yaml"; "second.yaml"]) cli_params
              = ([Opened "second.yaml"; Opened "config.yaml"; Warned;
                  Opened "second.yaml"; Warned],
                 inr (attributes PreparationSettings
                        (merged_from PreparationSettings
                           [second_yaml; config_yaml; second_yaml] cli_params))))
    by reflexivity.
  split; [exact E|].
  destruct (last_supplier_wins pandas PreparationSettings (sample_disk false)
              (ManyPaths ["second.yaml"; "config.yaml"; "second.yaml"]) cli_params
              "target" ["second.yaml"] "config.yaml" ["second.yaml"] config_yaml
              (VStr "quality") _ _
              ltac:(compute_done) ltac:(compute_done) eq_refl eq_refl eq_refl
              ltac:(by intros p d ->%list_elem_of_singleton [= <-])
              ltac:(by intros v [=]) E) as (w & Hw & Hs).
  rewrite Hw. f_equal. exact Hs.
Defined.

Lemma default_when_unsupplied_witness :
  ∃ inst,
    load pandas SplitSettings split_disk (OneStr "target.yaml") ∅
    = ([Opened "target.yaml"], inr inst) ∧
    inst !! "since" = Some (VStr "2020-01-01").
Proof.
  exists (attributes SplitSettings (merged_from SplitSettings [target_yaml] ∅)).
  assert (E : load pandas SplitSettings split_disk (OneStr "target.yaml") ∅
              = ([Opened "target.yaml"],
                 inr (attributes SplitSettings
                        (merged_from SplitSettings [target_yaml] ∅))))
    by reflexivity.
  split; [exact E|].
  apply (default_when_unsupplied pandas SplitSettings split_disk (OneStr "target.yaml") ∅
           {| fname := "since"; ftype := TTime Timestamp;
              fdefault := Some (VStr "2020-01-01") |}
           (VStr "2020-01-01") _ _
           ltac:(compute_done)
           (list_elem_of_further _ _ _
              (list_elem_of_further _ _ _ (list_elem_of_here _ _)))
           eq_refl
           ltac:(by intros p d ->%only_path_in [= <-])
           ltac:(by intros v [=]) E).
Defined.

Lemma instance_has_declared_fields_witness :
  is_Some (attributes SplitSettings (merged_from SplitSettings [target_yaml] ∅) !! "since")
  ↔ "since" ∈ field_names SplitSettings.
Proof.
  apply (instance_has_declared_fields pandas SplitSettings split_disk
           (OneStr "target.yaml") ∅ [Opened "target.yaml"]).
  - compute_done.
  - reflexivity.
Defined.

Lemma constructor_error_propagates_witness :
  ∃ e' g t' v',
    load pandas WindowSettings window_disk (OneStr "window.yaml") path_start_params
    = ([Opened "window.yaml"], inl e') ∧
    time_type_of WindowSettings g = Some t' ∧
    merged_from WindowSettings [window_yaml] path_start_params !! g = Some v' ∧
    is_none v' = false ∧ pandas t' v' = inl e'.
Proof.
  apply (constructor_error_propagates pandas WindowSettings window_disk
           (OneStr "window.yaml") path_start_params [Opened "window.yaml"]
           (merged_from WindowSettings [window_yaml] path_start_params)
           "start" Timestamp (VPath "data/raw.csv") TypeError).
  - compute_done.
  - reflexivity.
  - reflexivity.
  - reflexivity.
  - reflexivity.
  - reflexivity.
  - reflexivity.
Defined.

Lemma convert_without_time_fields_witness :
  _convert_to_time pandas PreparationSettings
    (merged_from PreparationSettings [config_yaml] cli_params)
  = inr (merged_from PreparationSettings [config_yaml] cli_params).
Proof.
  apply (proj1 (convert_without_time_fields pandas PreparationSettings
                  (sample_disk false) (OneStr "config.yaml") cli_params
                  [Opened "config.yaml"]
                  (merged_from PreparationSettings [config_yaml] cli_params)
                  eq_refl eq_refl eq_refl)).
Defined.


Lemma invalid_date_rejected_witness :
  calculate_gains sample_library (inr sample_frame) "AAPL" "2013-02-08" "invalid_date"
    1000%Z
  = inl (HTTPException 400
           ("Invalid date format. Use YYYY-MM-DD. Error: " ++
            "time data 'invalid_date' does not match format '%Y-%m-%d'")).
Proof.
  apply invalid_date_rejected. right. by exists 20130208%Z.
Defined.

Lemma unordered_dates_rejected_witness :
  calculate_gains sample_library (inr sample_frame) "AAPL" "2018-02-07" "2013-02-08"
    1000%Z
  = inl (HTTPException 400 "Start date must be before end date.").
Proof.
  apply (unordered_dates_rejected sample_library _ _ _ _ _ 20180207%Z 20130208%Z);
    [reflexivity|reflexivity|lia].
Defined.


Lemma not_found_witness :
  calculate_gains sample_library (inr sample_frame) "INVALID" "2013-02-08" "2018-02-07"
    1000%Z
  = inl (HTTPException 404 "No data found for the specified company and date range.").
Proof.
  apply (proj1 (not_found sample_library sample_frame "INVALID" "2013-02-08" "2018-02-07"
                  1000%Z 20130208%Z 20180207%Z eq_refl eq_refl ltac:(lia))).
  reflexivity.
Defined.

Lemma gains_returned_iff_witness :
  ∃ response,
    calculate_gains sample_library (inr sample_frame) "AAPL" "2013-02-08" "2018-02-07"
      1000%Z = inr response ∧
    status_code response = 200%Z.
Proof.
  eexists. split.
  - apply (proj2 (gains_returned_iff sample_library sample_frame "AAPL"
                    "2013-02-08" "2018-02-07" 1000%Z
                    20130208%Z 20180207%Z eq_refl eq_refl ltac:(lia) _)).
    exists (Build_row sample_library "AAPL" 20130208 (Some 2%Z) (Some 3%Z)),
           (Build_row sample_library "AAPL" 20180207 (Some 4%Z) (Some 5%Z)),
           2%Z, 5%Z.
    repeat split; reflexivity.
  - reflexivity.
Defined.

(** ** Runs of the contract on the sample inputs *)

Lemma sample_mapping (p : string) (d : gmap ykey value) (l : list string) :
  l = [p] → sample_disk false p = inr (YMap d) → all_mappings (sample_disk false) l.
Proof. intros -> Hd q ->%list_elem_of_singleton. by exists d. Qed.

Lemma missing_required_field_witness :
  load pandas PreparationSettings (sample_disk false) (OneStr "second.yaml") cli_params
  = ([Opened "second.yaml"], inl MissingParamError).
Proof.
  destruct (proj2 (missing_required_field pandas PreparationSettings
                     (sample_disk false) (OneStr "second.yaml") cli_params "target"
                     eq_refl
                     ltac:(by eexists {| fname := "target" |}; split; [left|])
                     ltac:(by intros p d ->%only_path_in [= <-])
                     ltac:(by intros v [=]))
              (sample_mapping "second.yaml" second_yaml _ eq_refl eq_refl))
    as (tr & merged & Hm & H).
  assert (E : merge PreparationSettings (sample_disk false) (OneStr "second.yaml")
                cli_params
              = ([Opened "second.yaml"],
                 inr (merged_from PreparationSettings [second_yaml] cli_params)))
    by reflexivity.
  rewrite E in Hm. apply pair_equal_spec in Hm as [<- Hm%(inj inr)].
  subst merged.
  apply (H (merged_from PreparationSettings [second_yaml] cli_params)). reflexivity.
Defined.

Lemma unknown_override_key_witness :
  load pandas PreparationSettings (sample_disk false) (OneStr "config.yaml") seeded_params
  = ([Opened "config.yaml"], inl MissingParamError).
Proof.
  destruct (unknown_override_key pandas PreparationSettings
              (sample_disk false) (OneStr "config.yaml") seeded_params
              "seed" (VInt 42)
              eq_refl ltac:(compute_done) eq_refl eq_refl) as (_ & _ & H).
  destruct (H (sample_mapping "config.yaml" config_yaml _ eq_refl eq_refl))
    as (tr & merged & Hm & _ & H').
  assert (E : merge PreparationSettings (sample_disk false) (OneStr "config.yaml")
                seeded_params
              = ([Opened "config.yaml"],
                 inr (merged_from PreparationSettings [config_yaml] seeded_params)))
    by reflexivity.
  rewrite E in Hm. apply pair_equal_spec in Hm as [<- Hm%(inj inr)].
  subst merged. exact (proj2 (H' _ eq_refl)).
Defined.

Lemma duplicate_key_warning_witness :
  ∃ tr2 acc',
    merge PreparationSettings (sample_disk false)
      (ManyPaths ["config.yaml"; "second.yaml"]) cli_params
    = (([Opened "config.yaml"] ++ Opened "second.yaml" :: Warned :: tr2)%list,
       inr (non_null cli_params ∪ acc')) ∧
    (recognised (fields PreparationSettings) second_yaml ∪
       (recognised (fields PreparationSettings) config_yaml ∪ ∅)) !! "test_size"
    = Some (VFloat "0.3").
Proof.
  destruct (duplicate_key_warning pandas PreparationSettings (sample_disk false)
              (ManyPaths ["config.yaml"; "second.yaml"]) cli_params
              ["config.yaml"] "second.yaml" [] second_yaml "test_size" (VFloat "0.3")
              eq_refl eq_refl
              ltac:(intros q [->|[->|[]%elem_of_nil]%elem_of_cons]%elem_of_cons;
                    by eexists)
              eq_refl ltac:(compute_done) eq_refl
              ltac:(by exists "config.yaml", config_yaml;
                    split; [left|split; [reflexivity|eexists]]))
    as (tr1 & acc & tr2 & acc' & H1 & _ & _ & Hnew & _ & Hm & _).
  assert (E : read_files (fields PreparationSettings) (sample_disk false)
                ["config.yaml"] ∅
              = ([Opened "config.yaml"],
                 inr (recognised (fields PreparationSettings) config_yaml ∪ ∅)))
    by reflexivity.
  rewrite E in H1. apply pair_equal_spec in H1 as [<- H1%(inj inr)].
  subst acc. exists tr2, acc'. split; [exact Hm|exact Hnew].
Defined.




Lemma script_never_exits_witness :
  data_prep pandas (sample_disk false) "config.yaml" "in.csv" "train.parquet"
    "test.parquet" (λ _, inl FileNotFoundError)
  = Uncaught TypeError.
Proof.
  destruct (script_never_exits pandas (sample_disk false) "config.yaml"
              "in.csv" "train.parquet" "test.parquet" (λ _, inl FileNotFoundError))
    as (_ & _ & _ & H & _).
  apply (H [Opened "config.yaml"]
           (attributes PreparationSettings
              (merged_from PreparationSettings [config_yaml]
                 (script_params "in.csv" "train.parquet" "test.parquet")))
           FileNotFoundError); reflexivity.
Defined.

(** ** Where the literal reading of the contract fails *)

(** A required field that nothing supplies, and [load] raising something
    else than [MissingParamError]: the [FileNotFoundError] of a file that
    is not there, and, with the one listed file read, the [TypeError] of the
    [Timestamp] constructor on a path. *)
Lemma missing_field_other_exception :
  (is_dataclass PreparationSettings = true ∧
   required PreparationSettings "target" ∧
   no_file_has (sample_disk false) (paths_of (OneStr "missing.yaml")) "target" ∧
   not_overridden cli_params "target" ∧
   load pandas PreparationSettings (sample_disk false) (OneStr "missing.yaml") cli_params
   = ([Opened "missing.yaml"], inl FileNotFoundError)) ∧
  (is_dataclass WindowSettings = true ∧
   required WindowSettings "label" ∧
   no_file_has window_disk (paths_of (OneStr "later.yaml")) "label" ∧
   not_overridden path_start_params "label" ∧
   load pandas WindowSettings window_disk (OneStr "later.yaml") path_start_params
   = ([Opened "later.yaml"], inl TypeError)).
Proof.
  split.
  - split; [done|]. split; [by eexists {| fname := "target" |}; split; [left|]|].
    split; [by intros p d ->%only_path_in [=]|].
    split; [by intros v [=]|reflexivity].
  - split; [done|]. split; [by eexists {| fname := "label" |}; split; [left|]|].
    split; [by intros p d ->%only_path_in [= <-]|].
    split; [by intros v [=]|reflexivity].
Qed.

(** An override the schema does not declare, and [load] raising the
    [FileNotFoundError] of the listed file: the files are not merged, the
    key enters no dictionary and no construction is attempted. *)
Lemma unknown_override_other_exception :
  is_dataclass PreparationSettings = true ∧
  ("seed" ∉ field_names PreparationSettings) ∧
  seeded_params !! "seed" = Some (VInt 42) ∧
  merge PreparationSettings (sample_disk false) (OneStr "missing.yaml") seeded_params
  = ([Opened "missing.yaml"], inl FileNotFoundError) ∧
  load pandas PreparationSettings (sample_disk false) (OneStr "missing.yaml") seeded_params
  = ([Opened "missing.yaml"], inl FileNotFoundError).
Proof.
  split; [done|]. split; [compute_done|]. repeat split; reflexivity.
Qed.

(** Two keys of the later file that the accumulator already holds, and one
    warning. *)
Lemma one_warning_for_two_keys :
  is_Some (config_yaml !! KStr "target") ∧ is_Some (null_yaml !! KStr "target") ∧
  is_Some (config_yaml !! KStr "test_size") ∧ is_Some (null_yaml !! KStr "test_size") ∧
  merge PreparationSettings (sample_disk false)
    (ManyPaths ["config.yaml"; "null.yaml"]) cli_params
  = ([Opened "config.yaml"; Opened "null.yaml"; Warned],
     inr (merged_from PreparationSettings [config_yaml; null_yaml] cli_params)) ∧
  warnings [Opened "config.yaml"; Opened "null.yaml"; Warned] = 1.
Proof.
  repeat (split; [by eexists|]). split; reflexivity.
Qed.

